(** * govydoc: type-documentation correlation engine

    A shallow embedding of the Go packages [internal/typeinfo],
    [internal/godoc] and [pkg/govydoc], and the properties of the
    specification checked against it.

    Conventions of the embedding:
    - Go strings are [string] (byte strings); the text helpers of the Go
      standard library that the code calls ([strings.CutPrefix],
      [strings.Contains], [strings.Split], [strings.TrimSpace] and the two
      regular expressions of [properties.go]) are written out on them.
    - A [reflect.Type] is a node of a type graph, which may be cyclic
      ([type Node struct { Next *Node }], [type S []S]): types are
      identifiers [tid] resolved in an environment [tid -> rtype].
    - The recursive walks over the type graph take a [fuel] bound on the
      depth of the Go call stack; [None] is "the call has not returned
      within that depth". *)

From Stdlib Require Import Ascii String.
From stdpp Require Import base option list gmap strings.

Local Open Scope stdpp_scope.

(* ===================================================================== *)
(** ** Go standard library: package [strings] *)
(* ===================================================================== *)

Module gostrings.

(** [strings.HasPrefix(s, prefix)] *)
Fixpoint HasPrefix (s prefix : string) {struct prefix} : bool :=
  match prefix with
  | EmptyString => true
  | String p prefix' =>
      match s with
      | EmptyString => false
      | String c s' => if Ascii.eqb c p then HasPrefix s' prefix' else false
      end
  end.

(** [strings.CutPrefix(s, prefix)]: [Some after] when found. *)
Fixpoint CutPrefix (s prefix : string) {struct prefix}
    : option string :=
  match prefix with
  | EmptyString => Some s
  | String p prefix' =>
      match s with
      | EmptyString => None
      | String c s' => if Ascii.eqb c p then CutPrefix s' prefix' else None
      end
  end.

(** [strings.Contains(s, substr)] *)
Fixpoint Contains (s substr : string) : bool :=
  HasPrefix s substr ||
  match s with
  | EmptyString => false
  | String _ s' => Contains s' substr
  end.

(** [strings.Split(s, sep)] for a one-byte separator. The result is never
    empty: it is the first piece and the list of the following ones. *)
Fixpoint splitPieces (sep : ascii) (s : string) : string * list string :=
  match s with
  | EmptyString => (EmptyString, [])
  | String c s' =>
      let '(w, ws) := splitPieces sep s' in
      if Ascii.eqb c sep then (EmptyString, w :: ws) else (String c w, ws)
  end.

Definition Split (s : string) (sep : ascii) : list string :=
  let '(w, ws) := splitPieces sep s in w :: ws.

(** [unicode.IsSpace] on one-byte characters:
    tab, line feed, vertical tab, form feed, carriage return, space. *)
Definition isSpace (c : ascii) : bool :=
  match c with
  | "009"%char | "010"%char | "011"%char | "012"%char | "013"%char
  | " "%char => true
  | _ => false
  end.

Fixpoint TrimLeft (s : string) : string :=
  match s with
  | EmptyString => EmptyString
  | String c s' => if isSpace c then TrimLeft s' else s
  end.

Fixpoint TrimRight (s : string) : string :=
  match s with
  | EmptyString => EmptyString
  | String c s' =>
      match TrimRight s' with
      | EmptyString => if isSpace c then EmptyString else String c EmptyString
      | r => String c r
      end
  end.

(** [strings.TrimSpace(s)] *)
Definition TrimSpace (s : string) : string := TrimRight (TrimLeft s).

End gostrings.

(* ===================================================================== *)
(** ** Go standard library: package [reflect] *)
(* ===================================================================== *)

Module reflect.

(** Identity of a runtime type. *)
Definition tid := nat.

(** [reflect.Kind], without the four kinds the code dispatches on. *)
Inductive otherKind :=
| Invalid | Bool | Int | Int8 | Int16 | Int32 | Int64
| Uint | Uint8 | Uint16 | Uint32 | Uint64 | Uintptr
| Float32 | Float64 | Complex64 | Complex128
| Array | Chan | Func | Interface | String_ | UnsafePointer.

(** [reflect.StructField]: [Name], [PkgPath] (empty for an exported
    field), [Type], and [TagJson], the value of [Tag.Get("json")]
    (empty when the field carries no json annotation). *)
Record StructField := {
  FieldName : string;
  FieldPkgPath : string;
  FieldType : tid;
  TagJson : string;
}.

(** The part of a type the code inspects through [Kind()], [Elem()],
    [Key()], [NumField()]/[Field(i)] and [reflect.VisibleFields]. *)
Inductive shape :=
| KOther (k : otherKind)
| KPointer (elem : tid)
| KSlice (elem : tid)
| KMap (key elem : tid)
| KStruct (fields visible : list StructField).

Record rtype := {
  Name : string;      (* Type.Name() *)
  PkgPath : string;   (* Type.PkgPath() *)
  TypeString : string; (* Type.String() *)
  Shape : shape;
}.

Definition typeEnv := tid -> rtype.

(** [Kind.String()] *)
Definition otherKindString (k : otherKind) : string :=
  match k with
  | Invalid => "invalid" | Bool => "bool" | Int => "int" | Int8 => "int8"
  | Int16 => "int16" | Int32 => "int32" | Int64 => "int64"
  | Uint => "uint" | Uint8 => "uint8" | Uint16 => "uint16"
  | Uint32 => "uint32" | Uint64 => "uint64" | Uintptr => "uintptr"
  | Float32 => "float32" | Float64 => "float64"
  | Complex64 => "complex64" | Complex128 => "complex128"
  | Array => "array" | Chan => "chan" | Func => "func"
  | Interface => "interface" | String_ => "string"
  | UnsafePointer => "unsafe.Pointer"
  end.

Definition kindString (s : shape) : string :=
  match s with
  | KOther k => otherKindString k
  | KPointer _ => "ptr"
  | KSlice _ => "slice"
  | KMap _ _ => "map"
  | KStruct _ _ => "struct"
  end.

(** [if typ.Kind() == reflect.Ptr { typ = typ.Elem() }] *)
Definition indirect (env : typeEnv) (typ : tid) : tid :=
  match Shape (env typ) with KPointer elem => elem | _ => typ end.

(** The nesting of sequences and mappings is finite: [rank] decreases from
    a sequence to its element and from a mapping to its key and element. *)
Definition finiteNesting (env : typeEnv) (rank : tid -> nat) : Prop :=
  forall t,
    match Shape (env t) with
    | KSlice elem => rank elem < rank t
    | KMap key elem => rank key < rank t /\ rank elem < rank t
    | _ => True
    end.


(** [StructField.IsExported()] *)
Definition IsExported (f : StructField) : bool :=
  if decide (FieldPkgPath f = "") then true else false.

End reflect.

(* ===================================================================== *)
(** ** Package [internal/typeinfo] *)
(* ===================================================================== *)

Module typeinfo.
Import reflect.

Record TypeInfo := {
  Name : string;
  Kind : string;
  Package : string;
}.

(** The Go zero value [TypeInfo{}]. *)
Definition zero : TypeInfo := {| Name := ""; Kind := ""; Package := "" |}.

Section WithEnv.
Variable env : typeEnv.

Fixpoint getKindString (fuel : nat) (typ : tid) : option string :=
  match fuel with
  | O => None
  | S fuel' =>
      match Shape (env typ) with
      | KMap key elem =>
          match getKindString fuel' key with
          | None => None
          | Some ks =>
              match getKindString fuel' elem with
              | None => None
              | Some es => Some ("map[" +:+ ks +:+ "]" +:+ es)
              end
          end
      | KSlice elem =>
          match getKindString fuel' elem with
          | None => None
          | Some es => Some ("[]" +:+ es)
          end
      | sh => Some (kindString sh)
      end
  end.

(** [Get(typ)]; [None] for [typ] is the nil [reflect.Type]. *)
Definition Get (fuel : nat) (typ : option tid) : option TypeInfo :=
  match typ with
  | None => Some zero
  | Some typ =>
      let typ := indirect env typ in
      match getKindString fuel typ with
      | None => None
      | Some kind =>
          let '(name, typ) :=
            match Shape (env typ) with
            | KSlice elem =>
                if decide (reflect.PkgPath (env typ) = "")
                then ("[]", elem) else ("", typ)
            | _ => ("", typ)
            end in
          if decide (reflect.PkgPath (env typ) = "")
          then Some {| Name := name +:+ reflect.TypeString (env typ);
                       Kind := kind; Package := "" |}
          else Some {| Name := name +:+ reflect.Name (env typ);
                       Kind := kind;
                       Package := reflect.PkgPath (env typ) |}
      end
  end.

End WithEnv.

End typeinfo.

(* ===================================================================== *)
(** ** Go standard library: package [go/ast], as far as the parser reads it *)
(* ===================================================================== *)

Module ast.

Inductive Expr :=
| Ident (name : string)
| SelectorExpr (x : Expr) (sel : string)
| StarExpr (x : Expr)
| OtherExpr.

(** [ast.Field]: [Names], [Type] ([None] is nil) and [Doc.Text()]. *)
Record Field := {
  Names : list string;
  Typ : option Expr;
  Doc : string;
}.

Inductive TypeExpr :=
| StructType (fields : list Field)
| OtherType.

Inductive Spec :=
| TypeSpec (typ : TypeExpr)
| OtherSpec.

(** [ast.GenDecl]: [Doc.Text()] and [Specs]. *)
Record GenDecl := {
  DeclDoc : string;
  Specs : list Spec;
}.

End ast.

(* ===================================================================== *)
(** ** Package [internal/godoc] *)
(* ===================================================================== *)

Module godoc.
Import reflect.

(** [type Doc struct]; [StructFields] is [None] for the nil map. *)
#[local] Set Warnings "-register-all".
Inductive Doc := mkDoc {
  Name : string;
  Package : string;
  DocText : string;
  StructFields : option (gmap string Doc);
}.

Abbreviation Docs := (gmap string Doc).

Definition Key (d : Doc) : string :=
  if decide (Package d = "") then Name d
  else Package d +:+ "." +:+ Name d.

Definition add (d : Docs) (doc : Doc) : Docs := <[Key doc := doc]> d.

(** The errors the parser creates, one constructor per
    [errors.Errorf]/[errors.Wrapf] site. *)
Inductive error :=
| PackageNotFound (pkgPath name : string)
| NotInScope (pkgPath name : string)
| DeclarationNotFound (pkgName name : string)
| FailedToFindDeclaration (cause : error) (name pkgPath : string)
| NoSpecs (name : string)
| NotTypeSpec (name : string)
| NotStructType (name : string)
| FailedToParseField (cause : error) (typeName fieldName : string)
| NoDocumentation (goType : string).

(** A loaded package: its path, and for every name what
    [findTypeDeclaration] sees: nothing in the package scope ([None]),
    an object without an enclosing declaration in the syntax
    ([Some None]), or the declaration. *)
Record goPackage := {
  PkgPath : string;
  Scope : gmap string (option ast.GenDecl);
}.

(** The state of one [Parse] call: the result map [docs], and the
    qualified names whose declaration was looked up, in call order
    (kept to count how often an entry is derived). *)
Record pstate := {
  docs : Docs;
  derived : list string;
}.

Definition initial : pstate := {| docs := ∅; derived := [] |}.

(** The state [st0] reached from [initial], replayed from [st]. *)
Definition after (st st0 : pstate) : pstate :=
  {| docs := docs st0 ∪ docs st; derived := derived st ++ derived st0 |}.

Definition result (A : Type) : Type := A + error.

(** A call that does not read the state it is given: run from [st], it
    does what it does from [initial], on top of [st]. *)
Definition stateBlind {A : Type}
    (run : pstate -> option (A * pstate)) : Prop :=
  forall st,
    run st = match run initial with
             | None => None
             | Some (r, st0) => Some (r, after st st0)
             end.

(** The bookkeeping of one declaration lookup. *)
Definition noteLookup (key : string) (st : pstate) : pstate :=
  {| docs := docs st; derived := derived st ++ [key] |}.

Definition getStructFieldName (field : StructField) : string :=
  if negb (IsExported field) then ""
  else
    match gostrings.Split (TagJson field) ","%char with
    | [] => FieldName field
    | tagName :: _ =>
        if decide (tagName = "") then FieldName field
        else if decide (tagName = "-") then ""
        else tagName
    end.

Definition addEmbeddedFieldToMap (astField : ast.Field)
    (astFieldsByName : gmap string ast.Field) : gmap string ast.Field :=
  match ast.Typ astField with
  | None => astFieldsByName
  | Some (ast.Ident name) => <[name := astField]> astFieldsByName
  | Some (ast.SelectorExpr (ast.Ident name) _) =>
      <[name := astField]> astFieldsByName
  | Some (ast.StarExpr (ast.Ident name)) =>
      <[name := astField]> astFieldsByName
  | Some _ => astFieldsByName
  end.

Definition buildASTFieldMap (structType : list ast.Field)
    : gmap string ast.Field :=
  fold_left
    (fun astFieldsByName astField =>
       let m := fold_left (fun m fieldName => <[fieldName := astField]> m)
                          (ast.Names astField) astFieldsByName in
       match ast.Names astField with
       | [] => addEmbeddedFieldToMap astField m
       | _ => m
       end)
    structType ∅.

Definition extractStructType (decl : ast.GenDecl) (name : string)
    : result (list ast.Field) :=
  match ast.Specs decl with
  | [] => inr (NoSpecs name)
  | ast.TypeSpec (ast.StructType fields) :: _ => inl fields
  | ast.TypeSpec _ :: _ => inr (NotStructType name)
  | _ :: _ => inr (NotTypeSpec name)
  end.

Section WithParser.
(** The runtime types, the parser's [pkgs] and the comment renderer of
    [go/doc/comment] ([Parser.Parse] then [Printer.Markdown]). *)
Variable env : typeEnv.
Variable pkgs : gmap string goPackage.
Variable Markdown : goPackage -> string -> string.

Definition getPackageByPath (pkgPath : string) : option goPackage :=
  pkgs !! pkgPath.

Definition findTypeDeclaration (pkg : goPackage) (name : string)
    : result ast.GenDecl :=
  match Scope pkg !! name with
  | None => inr (NotInScope (PkgPath pkg) name)
  | Some None => inr (DeclarationNotFound (PkgPath pkg) name)
  | Some (Some decl) => inl decl
  end.

Definition docCommentToMarkdown (pkg : goPackage) (text : string)
    : string :=
  if decide (text = "") then "" else Markdown pkg text.

Definition getTypeDeclarationInfo (pkgPath name : string)
    : result (goPackage * ast.GenDecl) :=
  match getPackageByPath pkgPath with
  | None => inr (PackageNotFound pkgPath name)
  | Some pkg =>
      match findTypeDeclaration pkg name with
      | inr err => inr (FailedToFindDeclaration err name pkgPath)
      | inl decl => inl (pkg, decl)
      end
  end.

Section Fields.
(** The recursive call [p.parse(goTypeField.Type, docs)]. *)
Variable parse : tid -> pstate -> option (result Doc * pstate).

Definition parseStructField (goTypeField : StructField) (typeDoc : Doc)
    (pkg : goPackage) (astFieldsByName : gmap string ast.Field)
    (st : pstate) : option (result Doc * pstate) :=
  match parse (FieldType goTypeField) st with
  | None => None
  | Some (inr err, st) =>
      Some (inr (FailedToParseField err (Name typeDoc)
                   (FieldName goTypeField)), st)
  | Some (inl fieldDoc, st) =>
      let fieldName := getStructFieldName goTypeField in
      if decide (fieldName = "") then Some (inl typeDoc, st)
      else
        let fieldDoc :=
          match astFieldsByName !! FieldName goTypeField with
          | Some astField =>
              mkDoc (Name fieldDoc) (Package fieldDoc)
                (docCommentToMarkdown pkg (ast.Doc astField))
                (StructFields fieldDoc)
          | None => fieldDoc
          end in
        Some (inl (mkDoc (Name typeDoc) (Package typeDoc)
                     (DocText typeDoc)
                     (Some (<[fieldName := fieldDoc]>
                              (default ∅ (StructFields typeDoc))))),
              st)
  end.

Fixpoint parseEachField (fields : list StructField) (typeDoc : Doc)
    (pkg : goPackage) (astFieldsByName : gmap string ast.Field)
    (st : pstate) : option (result Doc * pstate) :=
  match fields with
  | [] => Some (inl typeDoc, st)
  | field :: rest =>
      match parseStructField field typeDoc pkg astFieldsByName st with
      | None => None
      | Some (inr err, st) => Some (inr err, st)
      | Some (inl typeDoc, st) =>
          parseEachField rest typeDoc pkg astFieldsByName st
      end
  end.

Definition parseStructFields (fields : list StructField)
    (typeDoc : Doc) (pkg : goPackage) (decl : ast.GenDecl)
    (st : pstate) : option (result Doc * pstate) :=
  match extractStructType decl (Name typeDoc) with
  | inr err => Some (inr err, st)
  | inl structType =>
      let typeDoc := mkDoc (Name typeDoc) (Package typeDoc)
                       (DocText typeDoc) (Some ∅) in
      parseEachField fields typeDoc pkg
        (buildASTFieldMap structType) st
  end.
End Fields.

(** [switch goType.Kind() { case reflect.Pointer, reflect.Slice: goType =
    goType.Elem() }] *)
Definition descend (goType : tid) : tid :=
  match Shape (env goType) with
  | KPointer elem | KSlice elem => elem
  | _ => goType
  end.

Definition register (doc : Doc) (st : pstate) : pstate :=
  {| docs := add (docs st) doc; derived := derived st |}.

Fixpoint parse (fuel : nat) (goType : tid) (st : pstate)
    : option (result Doc * pstate) :=
  match fuel with
  | O => None
  | S fuel' =>
      let goType := descend goType in
      let name := reflect.Name (env goType) in
      let pkgPath := reflect.PkgPath (env goType) in
      let typeDoc := mkDoc name pkgPath "" None in
      if decide (pkgPath = "") then Some (inl typeDoc, st)
      else
        let st := noteLookup (Key typeDoc) st in
        match getTypeDeclarationInfo pkgPath name with
        | inr err => Some (inr err, st)
        | inl (pkg, decl) =>
            let typeDoc :=
              mkDoc name pkgPath
                (docCommentToMarkdown pkg (ast.DeclDoc decl)) None in
            match Shape (env goType) with
            | KStruct fields _ =>
                match parseStructFields (parse fuel') fields typeDoc
                        pkg decl st with
                | None => None
                | Some (inr err, st) => Some (inr err, st)
                | Some (inl typeDoc, st) =>
                    Some (inl typeDoc, register typeDoc st)
                end
            | _ => Some (inl typeDoc, register typeDoc st)
            end
        end
  end.


(** [Parse] returns the Go pair [(Docs, error)]; [None] in the first
    component is the nil map, in the second the nil error. *)
Definition Parse (fuel : nat) (goType : tid)
    : option (option Docs * option error) :=
  match parse fuel goType initial with
  | None => None
  | Some (inr err, _) => Some (None, Some err)
  | Some (inl _, st) =>
      if decide (size (docs st) = 0)
      then Some (None,
                 Some (NoDocumentation (reflect.TypeString (env goType))))
      else Some (Some (docs st), None)
  end.

End WithParser.

End godoc.

(* ===================================================================== *)
(** ** Package [pkg/govydoc] *)
(* ===================================================================== *)

Module govydoc.
Import reflect.

(** [type PropertyDoc struct]. Of the embedded [govy.PropertyPlan] only
    [Path] and [TypeInfo] are read or written by the functions below. *)
Record PropertyDoc := {
  Path : string;
  TypeInfo : typeinfo.TypeInfo;
  TypeDoc : string;
  FieldDoc : string;
  DeprecatedDoc : string;
  ChildrenPaths : list string;
}.

(** [type ObjectDoc struct], without [Examples]. *)
Record ObjectDoc := {
  Name : string;
  Properties : list PropertyDoc;
  Doc : string;
}.

(** The Go zero value [PropertyDoc{}] with [Path] and [TypeInfo] set. *)
Definition newProperty (path : string) (ti : typeinfo.TypeInfo)
    : PropertyDoc :=
  {| Path := path; TypeInfo := ti; TypeDoc := ""; FieldDoc := "";
     DeprecatedDoc := ""; ChildrenPaths := [] |}.

Definition key (p : PropertyDoc) : string :=
  if decide (typeinfo.Package (TypeInfo p) = "")
  then typeinfo.Name (TypeInfo p)
  else typeinfo.Package (TypeInfo p) +:+ "." +:+ typeinfo.Name (TypeInfo p).

(** *** object_mapper.go *)

(** The name under which the walker visits a struct member: the first
    comma-separated piece of its json annotation, unless that piece is
    empty or [-]. *)
Definition outputName (field : StructField) : option string :=
  match gostrings.Split (TagJson field) ","%char with
  | [] => None
  | name :: _ => if decide (name = "" \/ name = "-") then None else Some name
  end.

Section Mapper.
Variable env : typeEnv.

Section VisibleFields.
(** The recursive call [o.Map(field.Type, path+"."+name)]; the state is
    [o.Properties]. *)
Variable Map : tid -> string -> list PropertyDoc -> option (list PropertyDoc).

(** The loop [for _, field := range reflect.VisibleFields(typ)]. *)
Fixpoint MapVisibleFields (fields : list StructField) (path : string)
    (properties : list PropertyDoc) : option (list PropertyDoc) :=
  match fields with
  | [] => Some properties
  | field :: rest =>
      match gostrings.Split (TagJson field) ","%char with
      | [] => MapVisibleFields rest path properties
      | name :: _ =>
          if decide (name = "" \/ name = "-")
          then MapVisibleFields rest path properties
          else
            match Map (FieldType field) (path +:+ "." +:+ name) properties with
            | None => None
            | Some properties => MapVisibleFields rest path properties
            end
      end
  end.
End VisibleFields.

(** [(o *objectMapper) Map(typ, path)]. The bound [fuel'] left for the
    recursive calls is also the one given to [typeinfo.Get] in
    [setTypeInfo]. *)
Fixpoint Map (fuel : nat) (typ : tid) (path : string)
    (properties : list PropertyDoc) : option (list PropertyDoc) :=
  match fuel with
  | O => None
  | S fuel' =>
      let typ := indirect env typ in
      match typeinfo.Get env fuel' (Some typ) with
      | None => None
      | Some ti =>
          let properties := properties ++ [newProperty path ti] in
          match Shape (env typ) with
          | KStruct _ visible =>
              MapVisibleFields (Map fuel') visible path properties
          | KSlice elem => Map fuel' elem (path +:+ "[*]") properties
          | KMap key elem =>
              match Map fuel' key (path +:+ ".~") properties with
              | None => None
              | Some properties => Map fuel' elem (path +:+ ".*") properties
              end
          | _ => Some properties
          end
      end
  end.

End Mapper.

(** A member name that reads as one path segment: it has neither [.]
    nor [[]. *)
Definition plainName (name : string) : Prop :=
  gostrings.Contains name "." = false /\
  gostrings.Contains name "[" = false.

(** In every struct the output names of the visible members are pairwise
    distinct and are plain. *)
Definition distinctOutputNames (env : typeEnv) : Prop :=
  forall t fs vs,
    Shape (env t) = KStruct fs vs ->
    NoDup (omap outputName vs) /\ Forall plainName (omap outputName vs).

(** What may follow a path inside a longer path: nothing, or text that
    starts with [.] or [[]. *)
Definition delimited (s : string) : Prop :=
  match s with
  | EmptyString => True
  | String c _ => c = "."%char \/ c = "["%char
  end.

(** [path] is [parent] and one more step: an element step [[*]], or [.]
    and one segment. *)
Definition childOf (parent path : string) : Prop :=
  path = parent +:+ "[*]" \/
  exists segment,
    path = parent +:+ "." +:+ segment /\
    gostrings.Contains segment "." = false.

(** The paths a walk from [path] appends: [path] first, then distinct
    paths that continue it, each one step below a path of the list. *)
Definition subtreePaths (path : string) (paths : list string) : Prop :=
  exists rest,
    paths = path :: rest /\ NoDup paths /\
    (forall q, q ∈ paths -> exists s, q = path +:+ s /\ delimited s) /\
    (forall q, q ∈ rest -> exists q', q' ∈ paths /\ childOf q' q).

(** The paths the walks of the members [names] of the node at [path]
    append. *)
Definition memberPaths (path : string) (names paths : list string) : Prop :=
  NoDup paths /\
  (forall q, q ∈ paths ->
     exists name s,
       name ∈ names /\ q = path +:+ "." +:+ name +:+ s /\ delimited s) /\
  (forall q, q ∈ paths ->
     (exists name, name ∈ names /\ q = path +:+ "." +:+ name) \/
     exists q', q' ∈ paths /\ childOf q' q).

(** What the walk of one type appends, as far as paths go. *)
Definition appendsSubtree
    (Map : tid -> string -> list PropertyDoc -> option (list PropertyDoc))
    (typ : tid) : Prop :=
  forall path props props',
    Map typ path props = Some props' ->
    exists new, props' = props ++ new /\ subtreePaths path (map Path new).

(** *** object_doc.go *)

Fixpoint findPropertyChildrenPaths (parent : string)
    (properties : list PropertyDoc) : list string :=
  match properties with
  | [] => []
  | property :: rest =>
      match gostrings.CutPrefix (Path property) (parent +:+ ".") with
      | None => findPropertyChildrenPaths parent rest
      | Some childRelativePath =>
          if gostrings.Contains childRelativePath "."
          then findPropertyChildrenPaths parent rest
          else (parent +:+ "." +:+ childRelativePath)
                 :: findPropertyChildrenPaths parent rest
      end
  end.

Definition setChildrenPaths (property : PropertyDoc)
    (childrenPaths : list string) : PropertyDoc :=
  {| Path := Path property; TypeInfo := TypeInfo property;
     TypeDoc := TypeDoc property; FieldDoc := FieldDoc property;
     DeprecatedDoc := DeprecatedDoc property;
     ChildrenPaths := childrenPaths |}.

(** One iteration of [for i, property := range objectDoc.Properties]: the
    slice is updated in place and read again by the next iteration. *)
Definition addChildrenPaths (properties : list PropertyDoc) (i : nat)
    : list PropertyDoc :=
  match properties !! i with
  | None => properties
  | Some property =>
      <[i := setChildrenPaths property
               (findPropertyChildrenPaths (Path property) properties)]>
        properties
  end.

Definition generateObjectDoc (env : typeEnv) (fuel : nat) (goType : tid)
    : option ObjectDoc :=
  let goType := indirect env goType in
  match Map env fuel goType "$" [] with
  | None => None
  | Some properties =>
      Some {| Name := "";
              Properties := fold_left addChildrenPaths
                              (seq 0 (length properties)) properties;
              Doc := "" |}
  end.

(** *** properties.go *)

(** [var filterProperties] *)
Definition filterProperties : list string := ["$.organization"].

Definition propertyPostProcessor : Type := PropertyDoc -> PropertyDoc.

(** [slices.Contains] on strings. *)
Definition slicesContains (l : list string) (s : string) : bool :=
  existsb (String.eqb s) l.

(** The body of [postProcessProperties], for the value [excluded] of the
    package variable [filterProperties] at the time of the call. *)
Fixpoint postProcessLoop (excluded : list string)
    (formatters : list propertyPostProcessor)
    (properties : list PropertyDoc) : list PropertyDoc :=
  match properties with
  | [] => []
  | property :: rest =>
      if slicesContains excluded (Path property)
      then postProcessLoop excluded formatters rest
      else fold_left (fun property formatter => formatter property)
             formatters property
           :: postProcessLoop excluded formatters rest
  end.

Definition postProcessPropertiesWith (excluded : list string)
    (doc : ObjectDoc) (formatters : list propertyPostProcessor)
    : ObjectDoc :=
  {| Name := Name doc;
     Properties := postProcessLoop excluded formatters (Properties doc);
     Doc := Doc doc |}.

Definition postProcessProperties (doc : ObjectDoc)
    (formatters : list propertyPostProcessor) : ObjectDoc :=
  postProcessPropertiesWith filterProperties doc formatters.

(** [enumDeclarationRegex.ReplaceAllString(s, "")] for the pattern
    (?s)ENUM( .* ) (written here with spaces in the group): the one match runs from the first [ENUM] to the end of the text. *)
Fixpoint enumReplaceAll (s : string) : string :=
  if gostrings.HasPrefix s "ENUM" then ""
  else
    match s with
    | EmptyString => ""
    | String c s' => String c (enumReplaceAll s')
    end.

(** The class [\s] of Go regular expressions: tab, line feed, form feed,
    carriage return, space. *)
Definition reSpace (c : ascii) : bool :=
  match c with
  | "009"%char | "010"%char | "012"%char | "013"%char | " "%char => true
  | _ => false
  end.

Definition isNewline (c : ascii) : bool := Ascii.eqb c "010"%char.

Fixpoint skipReSpace (s : string) : string :=
  match s with
  | EmptyString => ""
  | String c s' => if reSpace c then skipReSpace s' else s
  end.

Fixpoint restOfLine (s : string) : string :=
  match s with
  | EmptyString => ""
  | String c s' => if isNewline c then "" else String c (restOfLine s')
  end.

(** [deprecatedRegex] is (?m)^Deprecated:\s*( .* )$ (written here with
    spaces in the group). A match starts at the
    beginning of a line that starts with [Deprecated:]; [\s*] takes the
    longest run of white space (line feeds too) and the group the rest of the
    line reached. [deprecatedFind bol s] is the first capture of the
    leftmost match in [s], where [bol] tells whether [s] starts a line. *)
Fixpoint deprecatedFind (bol : bool) (s : string) : option string :=
  match (if bol then gostrings.CutPrefix s "Deprecated:" else None) with
  | Some after => Some (restOfLine (skipReSpace after))
  | None =>
      match s with
      | EmptyString => None
      | String c s' => deprecatedFind (isNewline c) s'
      end
  end.

(** [deprecatedRegex.MatchString(s)] *)
Definition deprecatedMatchString (s : string) : bool :=
  match deprecatedFind true s with Some _ => true | None => false end.

(** [deprecatedRegex.FindStringSubmatch(s)[1]] *)
Definition deprecatedSubmatch (s : string) : option string :=
  deprecatedFind true s.

(** Where the scan of [ReplaceAllString] stands: copying text ([bol]: at
    the beginning of a line), or inside a match, dropping the rest of the
    literal [Deprecated:], then the white space, then the rest of the
    line. *)
Inductive scan :=
| Copy (bol : bool)
| DropLiteral (left : nat)
| DropSpace
| DropLine.

(** [deprecatedRegex.ReplaceAllString(s, "")] *)
Fixpoint deprecatedReplace (m : scan) (s : string) : string :=
  match s with
  | EmptyString => ""
  | String c s' =>
      match m with
      | Copy bol =>
          if bol && gostrings.HasPrefix s "Deprecated:"
          then deprecatedReplace (DropLiteral 10) s'
          else String c (deprecatedReplace (Copy (isNewline c)) s')
      | DropLiteral (S n) => deprecatedReplace (DropLiteral n) s'
      | DropLiteral O | DropSpace =>
          if reSpace c then deprecatedReplace DropSpace s'
          else deprecatedReplace DropLine s'
      | DropLine =>
          if isNewline c then String c (deprecatedReplace (Copy true) s')
          else deprecatedReplace DropLine s'
      end
  end.

(** A token without line feed. *)
Definition oneLine (w : string) : Prop :=
  gostrings.Contains w (String "010" "") = false.

Definition deprecatedReplaceAll (s : string) : string :=
  deprecatedReplace (Copy true) s.

Definition removeEnumDeclaration : propertyPostProcessor := fun doc =>
  {| Path := Path doc; TypeInfo := TypeInfo doc;
     TypeDoc := enumReplaceAll (TypeDoc doc);
     FieldDoc := FieldDoc doc; DeprecatedDoc := DeprecatedDoc doc;
     ChildrenPaths := ChildrenPaths doc |}.

Definition removeTrailingWhitespace : propertyPostProcessor := fun doc =>
  {| Path := Path doc; TypeInfo := TypeInfo doc;
     TypeDoc := gostrings.TrimSpace (TypeDoc doc);
     FieldDoc := gostrings.TrimSpace (FieldDoc doc);
     DeprecatedDoc := DeprecatedDoc doc;
     ChildrenPaths := ChildrenPaths doc |}.

Definition extractDeprecatedInformation : propertyPostProcessor := fun doc =>
  if deprecatedMatchString (TypeDoc doc) then
    {| Path := Path doc; TypeInfo := TypeInfo doc;
       TypeDoc := gostrings.TrimSpace (deprecatedReplaceAll (TypeDoc doc));
       FieldDoc := FieldDoc doc;
       DeprecatedDoc :=
         match deprecatedSubmatch (TypeDoc doc) with
         | Some m => gostrings.TrimSpace m
         | None => DeprecatedDoc doc
         end;
       ChildrenPaths := ChildrenPaths doc |}
  else if deprecatedMatchString (FieldDoc doc) then
    {| Path := Path doc; TypeInfo := TypeInfo doc;
       TypeDoc := TypeDoc doc;
       FieldDoc := gostrings.TrimSpace (deprecatedReplaceAll (FieldDoc doc));
       DeprecatedDoc :=
         match deprecatedSubmatch (FieldDoc doc) with
         | Some m => gostrings.TrimSpace m
         | None => DeprecatedDoc doc
         end;
       ChildrenPaths := ChildrenPaths doc |}
  else doc.

(** The transforms [Generate] passes, in its order. *)
Definition generateFormatters : list propertyPostProcessor :=
  [removeEnumDeclaration; extractDeprecatedInformation;
   removeTrailingWhitespace].

End govydoc.

(* ===================================================================== *)
(** ** Sample programs *)
(* ===================================================================== *)

Module sample.
Import reflect.

Definition pkg : string := "example.com/m".

Definition builtin (name : string) (k : otherKind) : rtype :=
  {| Name := name; PkgPath := ""; TypeString := name; Shape := KOther k |}.

Definition named (name : string) (sh : shape) : rtype :=
  {| Name := name; PkgPath := pkg; TypeString := "m." +:+ name;
     Shape := sh |}.

Definition unnamed (str : string) (sh : shape) : rtype :=
  {| Name := ""; PkgPath := ""; TypeString := str; Shape := sh |}.

(** An exported field; [tag] is the value of its json annotation. *)
Definition field (name : string) (typ : tid) (tag : string) : StructField :=
  {| FieldName := name; FieldPkgPath := ""; FieldType := typ;
     TagJson := tag |}.

(** A struct without embedded fields: [reflect.VisibleFields] is the list
    of its fields. *)
Definition struct (name : string) (fields : list StructField) : rtype :=
  named name (KStruct fields fields).

Definition tString : tid := 0.
Definition tInt : tid := 1.
Definition tNode : tid := 2.
Definition tNodePtr : tid := 3.
Definition tT : tid := 4.
Definition tPair : tid := 5.
Definition tHolder : tid := 6.
Definition tPlain : tid := 7.
Definition tSecret : tid := 8.
Definition tAccount : tid := 9.
Definition tTwice : tid := 10.
Definition tS : tid := 11.
Definition tListStruct : tid := 12.
Definition tStrings : tid := 13.
Definition tMapStruct : tid := 14.
Definition tStringToInt : tid := 15.
Definition tTs : tid := 16.

(**
<<
  type Node struct { Next *Node `json:"next"` }
  type T string
  type Pair struct { A T `json:"a"`; B T `json:"b"` }
  type Holder struct { Hidden T `json:"-"` }
  type Plain struct { NoTag int }
  type Secret struct { Token string `json:"token"` }
  type Account struct { Name string `json:"name"`; Secret Secret `json:"secret"` }
  type Twice struct { A int `json:"x"`; B int `json:"x"` }
  type S []S
  type ListStruct struct { Items []string `json:"items"` }
  type MapStruct struct { Data map[string]int `json:"data"` }
>>
    and the unnamed types [*Node], [[]string], [map[string]int], [[]T].
    [env] holds all of them but [Twice], which [withTwice] adds, and the
    self-referential [Node], [*Node] and [S], which [recursive] adds. *)
Definition env : typeEnv := fun t =>
  match t with
  | 0 => builtin "string" String_
  | 1 => builtin "int" Int
  | 4 => named "T" (KOther String_)
  | 5 => struct "Pair" [field "A" tT "a"; field "B" tT "b"]
  | 6 => struct "Holder" [field "Hidden" tT "-"]
  | 7 => struct "Plain" [field "NoTag" tInt ""]
  | 8 => struct "Secret" [field "Token" tString "token"]
  | 9 => struct "Account"
           [field "Name" tString "name"; field "Secret" tSecret "secret"]
  | 12 => struct "ListStruct" [field "Items" tStrings "items"]
  | 13 => unnamed "[]string" (KSlice tString)
  | 14 => struct "MapStruct" [field "Data" tStringToInt "data"]
  | 15 => unnamed "map[string]int" (KMap tString tInt)
  | 16 => unnamed "[]m.T" (KSlice tT)
  | _ => builtin "bool" Bool
  end.

Definition recursive : typeEnv := fun t =>
  match t with
  | 2 => struct "Node" [field "Next" tNodePtr "next"]
  | 3 => unnamed "*m.Node" (KPointer tNode)
  | 11 => named "S" (KSlice tS)
  | _ => env t
  end.

Definition withTwice : typeEnv := fun t =>
  match t with
  | 10 => struct "Twice" [field "A" tInt "x"; field "B" tInt "x"]
  | _ => env t
  end.

(** The number of nested type constructors of a type of [env]. *)
Definition rank : tid -> nat := fun t =>
  match t with
  | 5 | 6 | 7 | 8 | 13 | 15 | 16 => 1
  | 9 | 12 | 14 => 2
  | _ => 0
  end.

Definition astField (name doc : string) : ast.Field :=
  {| ast.Names := [name]; ast.Typ := Some (ast.Ident "_"); ast.Doc := doc |}.

Definition structDecl (doc : string) (fields : list ast.Field)
    : option ast.GenDecl :=
  Some {| ast.DeclDoc := doc;
          ast.Specs := [ast.TypeSpec (ast.StructType fields)] |}.

Definition typeDecl (doc : string) : option ast.GenDecl :=
  Some {| ast.DeclDoc := doc; ast.Specs := [ast.TypeSpec ast.OtherType] |}.

(** The declarations of package [m], with their doc comments. *)
Definition pkgs : gmap string godoc.goPackage :=
  {[ pkg :=
       {| godoc.PkgPath := pkg;
          godoc.Scope :=
            list_to_map
              [("Node", structDecl "Node is a list cell."
                          [astField "Next" "Next is the next cell."]);
               ("T", typeDecl "T is a text.");
               ("Pair", structDecl "Pair is two texts."
                          [astField "A" ""; astField "B" ""]);
               ("Holder", structDecl "Holder hides a text."
                            [astField "Hidden" ""]);
               ("Plain", structDecl "" [astField "NoTag" ""]);
               ("Secret", structDecl "" [astField "Token" ""]);
               ("Account", structDecl ""
                             [astField "Name" ""; astField "Secret" ""]);
               ("S", typeDecl "S is a tree.")] |} ]}.

(** The comment renderer is taken to return the text as it is. *)
Definition Markdown : godoc.goPackage -> string -> string :=
  fun _ text => text.

Definition property (path typeDoc fieldDoc : string)
    : govydoc.PropertyDoc :=
  {| govydoc.Path := path; govydoc.TypeInfo := typeinfo.zero;
     govydoc.TypeDoc := typeDoc; govydoc.FieldDoc := fieldDoc;
     govydoc.DeprecatedDoc := ""; govydoc.ChildrenPaths := [] |}.

End sample.

(* ===================================================================== *)
(** ** Package [pkg/govydoc]: [mergeDocs] and [extendWithValidationPlan] *)
(* ===================================================================== *)

Module generate.
Import govydoc.

Definition withTypeDoc (property : PropertyDoc) (doc : string)
    : PropertyDoc :=
  {| Path := Path property; TypeInfo := TypeInfo property;
     TypeDoc := doc; FieldDoc := FieldDoc property;
     DeprecatedDoc := DeprecatedDoc property;
     ChildrenPaths := ChildrenPaths property |}.

Definition withFieldDoc (property : PropertyDoc) (doc : string)
    : PropertyDoc :=
  {| Path := Path property; TypeInfo := TypeInfo property;
     TypeDoc := TypeDoc property; FieldDoc := doc;
     DeprecatedDoc := DeprecatedDoc property;
     ChildrenPaths := ChildrenPaths property |}.

(** The loop [for j, p := range objectDoc.Properties] of [mergeDocs]: the
    first property at [fieldPath] gets the field doc. *)
Fixpoint setFieldDocAt (fieldPath doc : string)
    (properties : list PropertyDoc) : list PropertyDoc :=
  match properties with
  | [] => []
  | p :: rest =>
      if decide (fieldPath = Path p) then withFieldDoc p doc :: rest
      else p :: setFieldDocAt fieldPath doc rest
  end.

(** One step of [for name, field := range goDoc.StructFields]. *)
Definition mergeField (path : string) (name : string) (field : godoc.Doc)
    (properties : list PropertyDoc) : list PropertyDoc :=
  setFieldDocAt (path +:+ "." +:+ name) (godoc.DocText field) properties.

(** The loop [for name, field := range goDoc.StructFields], in the order
    in which [map_fold] enumerates the map (Go leaves the order open). *)
Definition mergeFields (path : string) (fields : gmap string godoc.Doc)
    (properties : list PropertyDoc) : list PropertyDoc :=
  map_fold (mergeField path) properties fields.

(** One iteration of [for i, property := range objectDoc.Properties]:
    [property] is the copy taken when the iteration starts, written back
    at its end. *)
Definition mergeProperty (goDocs : gmap string godoc.Doc)
    (properties : list PropertyDoc) (i : nat) : list PropertyDoc :=
  match properties !! i with
  | None => properties
  | Some property =>
      if decide (typeinfo.Package (TypeInfo property) = "") then properties
      else
        match goDocs !! key property with
        | None => properties
        | Some goDoc =>
            let property := withTypeDoc property (godoc.DocText goDoc) in
            <[i := property]>
              (mergeFields (Path property)
                 (default ∅ (godoc.StructFields goDoc)) properties)
        end
  end.

Definition mergeDocs (objectDoc : ObjectDoc) (goDocs : gmap string godoc.Doc)
    : ObjectDoc :=
  {| Name := Name objectDoc;
     Properties := fold_left (mergeProperty goDocs)
                     (seq 0 (length (Properties objectDoc)))
                     (Properties objectDoc);
     Doc := Doc objectDoc |}.

(** [govy.PropertyPlan] and [govy.ValidatorPlan], with the fields of the
    plan that [PropertyDoc] keeps in this development. *)
Record PropertyPlan := {
  PlanPath : string;
  PlanTypeInfo : typeinfo.TypeInfo;
}.

Record ValidatorPlan := {
  PlanName : string;
  PlanProperties : list PropertyPlan;
}.

(** The inner loop of [extendWithValidationPlan]: the first property at
    the path of [propPlan] is replaced by
    [PropertyDoc{PropertyPlan: *propPlan, ChildrenPaths: propDoc.ChildrenPaths}]. *)
Fixpoint extendProperty (propPlan : PropertyPlan)
    (properties : list PropertyDoc) : list PropertyDoc :=
  match properties with
  | [] => []
  | propDoc :: rest =>
      if decide (PlanPath propPlan <> Path propDoc)
      then propDoc :: extendProperty propPlan rest
      else {| Path := PlanPath propPlan; TypeInfo := PlanTypeInfo propPlan;
              TypeDoc := ""; FieldDoc := ""; DeprecatedDoc := "";
              ChildrenPaths := ChildrenPaths propDoc |} :: rest
  end.

Definition extendWithValidationPlan (o : ObjectDoc) (plan : ValidatorPlan)
    : ObjectDoc :=
  {| Name := PlanName plan;
     Properties := fold_left (fun properties propPlan =>
                                extendProperty propPlan properties)
                     (PlanProperties plan) (Properties o);
     Doc := Doc o |}.

(** A property without its field doc. *)
Definition sansFieldDoc (p : PropertyDoc) : PropertyDoc := withFieldDoc p "".

(** What [mergeDocs] makes of a property, field doc apart. *)
Definition mergedSansFieldDoc (goDocs : gmap string godoc.Doc)
    (p : PropertyDoc) : PropertyDoc :=
  sansFieldDoc
    (withTypeDoc p
       (if decide (typeinfo.Package (TypeInfo p) = "") then TypeDoc p
        else
          match goDocs !! key p with
          | Some goDoc => godoc.DocText goDoc
          | None => TypeDoc p
          end)).

(** The iteration of [mergeDocs] for the property [p] writes a field doc
    at [fieldPath]: [p] has an entry with a member whose path that is. *)
Definition writesFieldDoc (goDocs : gmap string godoc.Doc) (p : PropertyDoc)
    (fieldPath : string) : Prop :=
  typeinfo.Package (TypeInfo p) <> "" /\
  exists goDoc name,
    goDocs !! key p = Some goDoc /\
    is_Some (default ∅ (godoc.StructFields goDoc) !! name) /\
    fieldPath = Path p +:+ "." +:+ name.

(** What [mergeDocs] leaves alone in a property. *)
Definition frame (p : PropertyDoc)
    : string * typeinfo.TypeInfo * string * list string :=
  (Path p, TypeInfo p, DeprecatedDoc p, ChildrenPaths p).

(** The type doc [mergeDocs] gives a property. *)
Definition mergedTypeDoc (goDocs : gmap string godoc.Doc) (p : PropertyDoc)
    : string :=
  if decide (typeinfo.Package (TypeInfo p) = "") then TypeDoc p
  else
    match goDocs !! key p with
    | Some goDoc => godoc.DocText goDoc
    | None => TypeDoc p
    end.

End generate.

(* ===================================================================== *)
(** ** Package [internal/pathutils] *)
(* ===================================================================== *)

Module pathutils.

(** A cleaned absolute directory, as the list of its components from the
    innermost one: [filepath.Dir] drops the head, and the root [[]] is its
    own parent. *)
Definition directory : Type := list string.

(** What [os.Stat(filepath.Join(dir, "go.mod"))] gives: an error for which
    [os.IsNotExist] holds, another error, a directory, or anything else. *)
Inductive statResult :=
| NotExist
| StatError (err : string)
| IsDir
| IsFile.

Inductive error :=
| GetwdFailed (err : string)
| StatFailed (err : string) (dir : directory)
| GoModNotFound.

(** The loop of [FindModuleRoot], from [dir] upwards. *)
Fixpoint searchUp (Stat : directory -> statResult) (dir : directory)
    : directory + error :=
  match Stat dir with
  | StatError err => inr (StatFailed err dir)
  | IsFile => inl dir
  | NotExist | IsDir =>
      match dir with
      | [] => inr GoModNotFound
      | _ :: parent => searchUp Stat parent
      end
  end.

(** [FindModuleRoot()], for the result [Getwd] of [os.Getwd()] and the
    file system seen through [Stat]. *)
Definition FindModuleRoot (Getwd : directory + string)
    (Stat : directory -> statResult) : directory + error :=
  match Getwd with
  | inr err => inr (GetwdFailed err)
  | inl dir => searchUp Stat dir
  end.

(** The search passes a directory whose [go.mod] is missing or is a
    directory. *)
Definition passes (Stat : directory -> statResult) (dir : directory) : Prop :=
  Stat dir = NotExist \/ Stat dir = IsDir.

End pathutils.

(* ===================================================================== *)
(** ** Sample documents *)
(* ===================================================================== *)

Module fixture.

(** The properties of
    [type Account struct { Name string `json:"name"` }], as the walk
    leaves them. *)
Definition account : govydoc.PropertyDoc :=
  {| govydoc.Path := "$";
     govydoc.TypeInfo := {| typeinfo.Name := "Account";
                            typeinfo.Kind := "struct";
                            typeinfo.Package := "example.com/m" |};
     govydoc.TypeDoc := ""; govydoc.FieldDoc := "";
     govydoc.DeprecatedDoc := ""; govydoc.ChildrenPaths := ["$.name"] |}.

Definition accountName : govydoc.PropertyDoc :=
  {| govydoc.Path := "$.name";
     govydoc.TypeInfo := {| typeinfo.Name := "string";
                            typeinfo.Kind := "string";
                            typeinfo.Package := "" |};
     govydoc.TypeDoc := ""; govydoc.FieldDoc := "";
     govydoc.DeprecatedDoc := ""; govydoc.ChildrenPaths := [] |}.

Definition objectDoc : govydoc.ObjectDoc :=
  {| govydoc.Name := "Account";
     govydoc.Properties := [account; accountName];
     govydoc.Doc := "" |}.

Definition nameDoc : godoc.Doc :=
  godoc.mkDoc "string" "" "Name is the name of the account." None.

Definition accountDoc : godoc.Doc :=
  godoc.mkDoc "Account" "example.com/m" "Account is an account."
    (Some {[ "name" := nameDoc ]}).

(** The documentation map of [Account]. *)
Definition goDocs : gmap string godoc.Doc :=
  {[ "example.com/m.Account" := accountDoc ]}.

End fixture.

(* ===================================================================== *)
(** ** Notions used to state the properties of the correlator *)
(* ===================================================================== *)

Module registry.

(** The entry [d] belongs to a named type whose declaration the parser
    finds, and its doc text is the rendered comment of that declaration. *)
Definition documented (pkgs : gmap string godoc.goPackage)
    (Markdown : godoc.goPackage -> string -> string) (d : godoc.Doc)
    : Prop :=
  godoc.Package d <> "" /\
  exists pkg decl,
    godoc.getTypeDeclarationInfo pkgs (godoc.Package d) (godoc.Name d)
    = inl (pkg, decl) /\
    godoc.DocText d
    = godoc.docCommentToMarkdown Markdown pkg (ast.DeclDoc decl).

(** Every entry of a result map is stored under the qualified name of
    its type and is [documented]. *)
Definition sound (pkgs : gmap string godoc.goPackage)
    (Markdown : godoc.goPackage -> string -> string)
    (docs : gmap string godoc.Doc) : Prop :=
  forall k d,
    docs !! k = Some d ->
    k = godoc.Package d +:+ "." +:+ godoc.Name d /\
    documented pkgs Markdown d.

(** The member doc [parseStructField] makes of the entry [fieldDoc] of the
    member's type: its doc text is replaced by the rendered comment of the
    declared field found under the member's Go name, if there is one. *)
Definition memberDoc (Markdown : godoc.goPackage -> string -> string)
    (pkg : godoc.goPackage) (astFieldsByName : gmap string ast.Field)
    (goTypeField : reflect.StructField) (fieldDoc : godoc.Doc) : godoc.Doc :=
  match astFieldsByName !! reflect.FieldName goTypeField with
  | Some astField =>
      godoc.mkDoc (godoc.Name fieldDoc) (godoc.Package fieldDoc)
        (godoc.docCommentToMarkdown Markdown pkg (ast.Doc astField))
        (godoc.StructFields fieldDoc)
  | None => fieldDoc
  end.

(** The key under which an embedded member is entered in the name map. *)
Definition embeddedKey (astField : ast.Field) : option string :=
  match ast.Typ astField with
  | Some (ast.Ident name) => Some name
  | Some (ast.SelectorExpr (ast.Ident name) _) => Some name
  | Some (ast.StarExpr (ast.Ident name)) => Some name
  | _ => None
  end.

(** The keys a declared field is entered under: its names, or for an
    embedded member its [embeddedKey]. *)
Definition fieldKeys (astField : ast.Field) : list string :=
  match ast.Names astField with
  | [] => match embeddedKey astField with Some k => [k] | None => [] end
  | names => names
  end.

(** The type of the recursive call [p.parse(goTypeField.Type, docs)]. *)
Definition run : Type :=
  reflect.tid -> godoc.pstate ->
  option (godoc.result godoc.Doc * godoc.pstate).

(** The entry [parse] makes for the type [goType], member docs apart. *)
Definition describes (env : reflect.typeEnv) (goType : reflect.tid)
    (d : godoc.Doc) : Prop :=
  godoc.Name d = reflect.Name (env (godoc.descend env goType)) /\
  godoc.Package d = reflect.PkgPath (env (godoc.descend env goType)).

End registry.

Module correlated.

(** The map [Parse] returns for a type of the sample program; empty when
    [Parse] fails. *)
Definition docs (fuel : nat) (goType : reflect.tid)
    : gmap string godoc.Doc :=
  match godoc.Parse sample.env sample.pkgs sample.Markdown fuel goType with
  | Some (Some docs, _) => docs
  | _ => ∅
  end.

(** The document the walk gives for a type of the sample program; empty
    when the walk does not return. *)
Definition walked (fuel : nat) (goType : reflect.tid) : govydoc.ObjectDoc :=
  match govydoc.generateObjectDoc sample.env fuel goType with
  | Some doc => doc
  | None => {| govydoc.Name := ""; govydoc.Properties := [];
               govydoc.Doc := "" |}
  end.

(** The sample program with
    [type Holder struct { Hidden Missing `json:"hidden"` }], where the
    string type [Missing] of package [m] has no declaration in the loaded
    packages. *)
Definition withMissing : reflect.typeEnv := fun t =>
  match t with
  | 6 => sample.struct "Holder" [sample.field "Hidden" 20 "hidden"]
  | 20 => sample.named "Missing" (reflect.KOther reflect.String_)
  | _ => sample.env t
  end.

End correlated.

(* ===================================================================== *)
(** ** Notions used to state the properties of the walker *)
(* ===================================================================== *)

Module walk.

(** The property [p] of a walk from the empty path, placed below
    [path]. *)
Definition mount (path : string) (p : govydoc.PropertyDoc)
    : govydoc.PropertyDoc :=
  {| govydoc.Path := path +:+ govydoc.Path p;
     govydoc.TypeInfo := govydoc.TypeInfo p;
     govydoc.TypeDoc := govydoc.TypeDoc p;
     govydoc.FieldDoc := govydoc.FieldDoc p;
     govydoc.DeprecatedDoc := govydoc.DeprecatedDoc p;
     govydoc.ChildrenPaths := govydoc.ChildrenPaths p |}.

(** The walk [Map] appends, to any list and at any path, what it gives
    from the empty path on the empty list, placed below the path. *)
Definition mounts
    (Map : reflect.tid -> string -> list govydoc.PropertyDoc ->
           option (list govydoc.PropertyDoc)) : Prop :=
  forall typ path properties,
    Map typ path properties
    = match Map typ "" [] with
      | None => None
      | Some new => Some (properties ++ map (mount path) new)
      end.

End walk.

(* ===================================================================== *)
(** ** Notions used to state the properties of the text transforms *)
(* ===================================================================== *)

Module text.






End text.

(* ===================================================================== *)
(** ** Properties of [typeinfo.Get] *)
(* ===================================================================== *)

Section TypeInfoFacts.
Import reflect.
Variable env : typeEnv.



Lemma getKindString_total rank :
  finiteNesting env rank ->
  forall fuel typ, rank typ < fuel ->
    exists s, typeinfo.getKindString env fuel typ = Some s.
Proof.
  intros Hwf fuel. induction fuel as [|fuel IH]; intros typ Hlt; [lia|].
  cbn [typeinfo.getKindString]. specialize (Hwf typ).
  destruct (Shape (env typ)) as [k|e|e|k e|fs vs]; eauto.
  - destruct (IH e) as [s ->]; [lia|]. eauto.
  - destruct Hwf as [Hk He].
    destruct (IH k) as [s1 ->]; [lia|].
    destruct (IH e) as [s2 ->]; [lia|]. eauto.
Qed.

Lemma Get_total rank :
  finiteNesting env rank ->
  forall fuel typ, rank (indirect env typ) < fuel ->
    exists ti, typeinfo.Get env fuel (Some typ) = Some ti.
Proof.
  intros Hwf fuel typ Hlt. unfold typeinfo.Get.
  destruct (getKindString_total rank Hwf fuel _ Hlt) as [kind ->].
  destruct (Shape (env (indirect env typ)));
    repeat case_decide; eauto.
Qed.

End TypeInfoFacts.

Lemma getKindString_S_diverges fuel :
  typeinfo.getKindString sample.recursive fuel sample.tS = None.
Proof.
  induction fuel as [|fuel IH]; [reflexivity|].
  cbn [typeinfo.getKindString]. change (reflect.Shape (sample.recursive sample.tS))
    with (reflect.KSlice sample.tS). cbv beta iota. now rewrite IH.
Qed.

(** C9, as stated, fails: on the self-referential sequence type
    [type S []S] the extractor returns no descriptor, whatever the depth
    of the call stack allowed to [getKindString]. *)
Lemma C9_counterexample :
  ~ exists fuel ti,
      typeinfo.Get sample.recursive fuel (Some sample.tS) = Some ti.
Proof.
  intros (fuel & ti & H). unfold typeinfo.Get in H.
  change (reflect.indirect sample.recursive sample.tS) with sample.tS in H.
  now rewrite getKindString_S_diverges in H.
Qed.

(** C9, amended: for the nil type the extractor returns the zero-value
    descriptor; for every type whose nesting of sequences and mappings is
    finite it returns a descriptor, and when the type (behind one pointer)
    is an unnamed sequence, the descriptor has an empty package and the
    name [[]] followed by the element's [String()] if the element has no
    package, and the element's package and the name [[]] followed by the
    element's [Name()] if it has one. *)
Theorem C9_Get_sequence_namespace
    (env : reflect.typeEnv) (rank : reflect.tid -> nat)
    (Hfinite : reflect.finiteNesting env rank) :
  (forall fuel, typeinfo.Get env fuel None = Some typeinfo.zero) /\
  (forall fuel typ, rank (reflect.indirect env typ) < fuel ->
     exists ti,
       typeinfo.Get env fuel (Some typ) = Some ti /\
       forall elem,
         reflect.Shape (env (reflect.indirect env typ)) = reflect.KSlice elem ->
         reflect.PkgPath (env (reflect.indirect env typ)) = "" ->
         (reflect.PkgPath (env elem) = "" ->
            typeinfo.Package ti = "" /\
            typeinfo.Name ti = "[]" +:+ reflect.TypeString (env elem)) /\
         (reflect.PkgPath (env elem) <> "" ->
            typeinfo.Package ti = reflect.PkgPath (env elem) /\
            typeinfo.Name ti = "[]" +:+ reflect.Name (env elem))).
Proof.
  split; [reflexivity|].
  intros fuel typ Hlt.
  destruct (Get_total env rank Hfinite fuel typ Hlt) as [ti Hti].
  exists ti. split; [exact Hti|].
  intros elem Hshape Hpkg. unfold typeinfo.Get in Hti.
  destruct (typeinfo.getKindString env fuel (reflect.indirect env typ));
    [|discriminate].
  rewrite Hshape in Hti. rewrite decide_True in Hti by exact Hpkg.
  split; intros Helem.
  - rewrite decide_True in Hti by exact Helem.
    injection Hti as <-. now split.
  - rewrite decide_False in Hti by exact Helem.
    injection Hti as <-. now split.
Qed.

Lemma sample_finiteNesting : reflect.finiteNesting sample.env sample.rank.
Proof.
  intros t. do 17 (destruct t as [|t]; [cbn; lia|]). cbn. exact I.
Qed.

Lemma C9_Get_sequence_namespace_witness :
  reflect.finiteNesting sample.env sample.rank /\
  exists ti,
    typeinfo.Get sample.env 2 (Some sample.tTs) = Some ti /\
    typeinfo.Package ti = "example.com/m" /\ typeinfo.Name ti = "[]T".
Proof.
  split; [exact sample_finiteNesting|].
  destruct (C9_Get_sequence_namespace sample.env sample.rank
              sample_finiteNesting) as [_ H].
  destruct (H 2 sample.tTs) as (ti & Hti & Hseq); [cbn; lia|].
  exists ti. split; [exact Hti|].
  destruct (Hseq sample.tT eq_refl eq_refl) as [_ Hnamed].
  apply Hnamed. discriminate.
Defined.

(* ===================================================================== *)
(** ** Termination of the structural walk and of the correlation *)
(* ===================================================================== *)

Section WalkTermination.
Import reflect.
Variable env : typeEnv.



Variable pkgs : gmap string godoc.goPackage.
Variable Markdown : godoc.goPackage -> string -> string.





End WalkTermination.







(* ===================================================================== *)
(** ** Properties of the documentation correlator *)
(* ===================================================================== *)

Section CorrelatorFacts.
Import reflect.
Variable env : typeEnv.
Variable pkgs : gmap string godoc.goPackage.
Variable Markdown : godoc.goPackage -> string -> string.

Lemma after_initial_l st : godoc.after godoc.initial st = st.
Proof.
  destruct st as [d l]. unfold godoc.after. cbn.
  now rewrite (right_id_L ∅ (∪)).
Qed.

Lemma after_initial_r st : godoc.after st godoc.initial = st.
Proof.
  destruct st as [d l]. unfold godoc.after. cbn.
  now rewrite (left_id_L ∅ (∪)), app_nil_r.
Qed.

Lemma after_after st st1 st2 :
  godoc.after (godoc.after st st1) st2 = godoc.after st (godoc.after st1 st2).
Proof.
  unfold godoc.after. cbn. f_equal.
  - now rewrite (assoc_L (∪)).
  - now rewrite (assoc_L (++)).
Qed.

Lemma register_after doc st st0 :
  godoc.register doc (godoc.after st st0)
  = godoc.after st (godoc.register doc st0).
Proof.
  unfold godoc.register, godoc.after, godoc.add. cbn. f_equal.
  now rewrite insert_union_l.
Qed.

Lemma noteLookup_after key st :
  godoc.noteLookup key st
  = godoc.after st (godoc.noteLookup key godoc.initial).
Proof.
  unfold godoc.noteLookup, godoc.after. cbn. f_equal.
  now rewrite (left_id_L ∅ (∪)).
Qed.

Lemma parseStructField_stateBlind parse f typeDoc pkg astFields :
  (forall t, godoc.stateBlind (parse t)) ->
  godoc.stateBlind
    (godoc.parseStructField Markdown parse f typeDoc pkg astFields).
Proof.
  intros Hparse st. unfold godoc.parseStructField.
  rewrite (Hparse (FieldType f) st).
  destruct (parse (FieldType f) godoc.initial) as [[[fieldDoc|err] st0]|];
    [|reflexivity..].
  case_decide; reflexivity.
Qed.

Lemma parseEachField_stateBlind parse fields :
  (forall t, godoc.stateBlind (parse t)) ->
  forall typeDoc pkg astFields,
    godoc.stateBlind
      (godoc.parseEachField Markdown parse fields typeDoc pkg astFields).
Proof.
  intros Hparse. induction fields as [|f fields IH];
    intros typeDoc pkg astFields st; cbn [godoc.parseEachField].
  - now rewrite after_initial_r.
  - rewrite (parseStructField_stateBlind parse f typeDoc pkg astFields
               Hparse st).
    destruct (godoc.parseStructField Markdown parse f typeDoc pkg astFields
                godoc.initial) as [[[typeDoc'|err] st0]|]; [|reflexivity..].
    rewrite (IH typeDoc' pkg astFields (godoc.after st st0)).
    rewrite (IH typeDoc' pkg astFields st0).
    destruct (godoc.parseEachField Markdown parse fields typeDoc' pkg
                astFields godoc.initial) as [[r st1]|]; [|reflexivity].
    now rewrite after_after.
Qed.

Lemma parseStructFields_stateBlind parse fields typeDoc pkg decl :
  (forall t, godoc.stateBlind (parse t)) ->
  godoc.stateBlind
    (godoc.parseStructFields Markdown parse fields typeDoc pkg decl).
Proof.
  intros Hparse st. unfold godoc.parseStructFields.
  destruct (godoc.extractStructType decl _); [|now rewrite after_initial_r].
  now apply parseEachField_stateBlind.
Qed.

Lemma parse_stateBlind fuel goType :
  godoc.stateBlind (godoc.parse env pkgs Markdown fuel goType).
Proof.
  revert goType. induction fuel as [|fuel IH]; intros goType st;
    [reflexivity|].
  cbn [godoc.parse].
  case_decide; [now rewrite after_initial_r|].
  rewrite (noteLookup_after _ st).
  set (st1 := godoc.noteLookup _ godoc.initial).
  destruct (godoc.getTypeDeclarationInfo pkgs _ _) as [[pkg decl]|err];
    [|reflexivity].
  destruct (Shape (env (godoc.descend env goType)));
    try (now rewrite register_after).
  rewrite (parseStructFields_stateBlind _ _ _ _ _ IH (godoc.after st st1)).
  rewrite (parseStructFields_stateBlind _ _ _ _ _ IH st1).
  destruct (godoc.parseStructFields Markdown _ _ _ _ _ godoc.initial)
    as [[[typeDoc|err] st0]|]; [|now rewrite after_after|reflexivity].
  now rewrite after_after, register_after.
Qed.

End CorrelatorFacts.

(** C2, as stated, fails: correlating
    [type Pair struct { A T `json:"a"`; B T `json:"b"` }] looks up and
    derives the entry of [example.com/m.T] twice, once per member. *)
Lemma C2_counterexample :
  exists r st,
    godoc.parse sample.env sample.pkgs sample.Markdown 3 sample.tPair
      godoc.initial = Some (r, st) /\
    godoc.derived st
    = ["example.com/m.Pair"; "example.com/m.T"; "example.com/m.T"].
Proof.
  eexists _, _. split; [vm_compute; reflexivity|reflexivity].
Qed.

(** C2, amended: during one correlation pass an entry is derived anew at
    every reference to its qualified name. [parse] never reads the result
    map: from any map it returns the same entry and looks up the same
    declarations, in the same order, as from the empty map, and it stores
    each entry it derives under its qualified name, over the entry already
    there. *)
Theorem C2_parse_derives_at_every_reference
    (env : reflect.typeEnv) (pkgs : gmap string godoc.goPackage)
    (Markdown : godoc.goPackage -> string -> string)
    (fuel : nat) (goType : reflect.tid) (st : godoc.pstate) :
  godoc.parse env pkgs Markdown fuel goType st
  = match godoc.parse env pkgs Markdown fuel goType godoc.initial with
    | None => None
    | Some (r, st0) =>
        Some (r, {| godoc.docs := godoc.docs st0 ∪ godoc.docs st;
                    godoc.derived := godoc.derived st ++ godoc.derived st0 |})
    end.
Proof. exact (parse_stateBlind env pkgs Markdown fuel goType st). Qed.




(** C8: for every root type that, behind at most one pointer or sequence,
    has an empty package path (a bare built-in such as [string] is its own
    such type), [Parse] returns the nil map and the "no documentation
    found" error; and whenever [Parse] returns an error, the map it
    returns with it is nil. *)
Theorem C8_builtin_root_fails_and_no_partial_map
    (env : reflect.typeEnv) (pkgs : gmap string godoc.goPackage)
    (Markdown : godoc.goPackage -> string -> string) :
  (forall fuel goType,
     reflect.PkgPath (env (godoc.descend env goType)) = "" ->
     godoc.Parse env pkgs Markdown (S fuel) goType
     = Some (None,
             Some (godoc.NoDocumentation (reflect.TypeString (env goType)))))
  /\
  (forall fuel goType m err,
     godoc.Parse env pkgs Markdown fuel goType = Some (m, Some err) ->
     m = None).
Proof.
  split.
  - intros fuel goType Hpkg. unfold godoc.Parse. cbn [godoc.parse].
    rewrite decide_True by exact Hpkg. reflexivity.
  - intros fuel goType m err. unfold godoc.Parse.
    destruct (godoc.parse env pkgs Markdown fuel goType godoc.initial)
      as [[[doc|e] st]|]; [|congruence..].
    case_decide; congruence.
Qed.

Lemma C8_builtin_root_fails_and_no_partial_map_witness :
  reflect.PkgPath (sample.env (godoc.descend sample.env sample.tString)) = ""
  /\
  godoc.Parse sample.env sample.pkgs sample.Markdown 1 sample.tString
  = Some (None, Some (godoc.NoDocumentation "string")).
Proof.
  split; [reflexivity|].
  exact (proj1 (C8_builtin_root_fails_and_no_partial_map sample.env
                  sample.pkgs sample.Markdown) 0 sample.tString eq_refl).
Defined.

(* ===================================================================== *)
(** ** Facts about strings *)
(* ===================================================================== *)

Section StringFacts.
Import gostrings.

Lemma append_cons x (a b : string) : String x a +:+ b = String x (a +:+ b).
Proof. reflexivity. Qed.

Lemma append_assoc (a b c : string) : (a +:+ b) +:+ c = a +:+ b +:+ c.
Proof.
  induction a as [|x a IH]; [reflexivity|]. rewrite !append_cons.
  now f_equal.
Qed.

Lemma append_nil_r (a : string) : a +:+ "" = a.
Proof.
  induction a as [|x a IH]; [reflexivity|]. rewrite append_cons.
  now f_equal.
Qed.

Lemma append_length (a b : string) :
  String.length (a +:+ b) = String.length a + String.length b.
Proof.
  induction a as [|x a IH]; [reflexivity|]. rewrite append_cons. cbn.
  now f_equal.
Qed.

Lemma append_inv_head (a b c : string) : a +:+ b = a +:+ c -> b = c.
Proof.
  induction a as [|x a IH]; [tauto|]. rewrite !append_cons.
  intros [= H]. auto.
Qed.

Lemma append_self_nil (a b : string) : a +:+ b = a -> b = "".
Proof.
  intros H. apply (append_inv_head a). now rewrite append_nil_r.
Qed.

Lemma CutPrefix_Some s prefix after :
  CutPrefix s prefix = Some after <-> s = prefix +:+ after.
Proof.
  revert s. induction prefix as [|p prefix IH]; intros s;
    cbn [CutPrefix].
  - change ("" +:+ after) with after. split; congruence.
  - rewrite append_cons. destruct s as [|c s]; [split; discriminate|].
    destruct (Ascii.eqb_spec c p) as [->|Hne].
    + rewrite IH. split; congruence.
    + split; [discriminate|]. intros [= ? ?]. contradiction.
Qed.

Lemma CutPrefix_app prefix after :
  CutPrefix (prefix +:+ after) prefix = Some after.
Proof. now apply CutPrefix_Some. Qed.

Lemma HasPrefix_CutPrefix s prefix :
  HasPrefix s prefix
  = match CutPrefix s prefix with Some _ => true | None => false end.
Proof.
  revert s. induction prefix as [|p prefix IH]; intros s; cbn;
    [reflexivity|].
  destruct s as [|c s]; [reflexivity|].
  destruct (Ascii.eqb c p); [apply IH|reflexivity].
Qed.

(** [Contains s (String c "")], one character at a time. *)
Lemma Contains_char_cons c d s :
  Contains (String d s) (String c "")
  = Ascii.eqb d c || Contains s (String c "").
Proof. cbn. destruct (Ascii.eqb d c); reflexivity. Qed.


End StringFacts.

(* ===================================================================== *)
(** ** Properties of the children-path pass *)
(* ===================================================================== *)

Section ChildrenPaths.
Import govydoc.


Lemma findPropertyChildrenPaths_ext parent l1 l2 :
  map Path l1 = map Path l2 ->
  findPropertyChildrenPaths parent l1 = findPropertyChildrenPaths parent l2.
Proof.
  revert l2. induction l1 as [|p l1 IH]; intros [|p2 l2]; cbn; try discriminate;
    [reflexivity|].
  intros [= Hp Hl]. rewrite Hp, (IH l2 Hl). reflexivity.
Qed.

(** The in-place loop of [generateObjectDoc] gives every property the
    children computed on the list as [Map] left it. *)
Lemma addChildrenPaths_loop properties :
  fold_left addChildrenPaths (seq 0 (length properties)) properties
  = map (fun p => setChildrenPaths p
                    (findPropertyChildrenPaths (Path p) properties))
        properties.
Proof.
  set (f := fun p => setChildrenPaths p
                       (findPropertyChildrenPaths (Path p) properties)).
  assert (forall k, k <= length properties ->
            fold_left addChildrenPaths (seq 0 k) properties
            = map f (take k properties) ++ drop k properties) as H.
  { induction k as [|k IH]; intros Hk; [reflexivity|].
    rewrite seq_S, fold_left_app, IH by lia. cbn [fold_left Nat.add].
    destruct (lookup_lt_is_Some_2 properties k) as [x Hx]; [lia|].
    assert (length (map f (take k properties)) = k) as Hlen
      by (rewrite length_map, length_take; lia).
    unfold addChildrenPaths.
    rewrite lookup_app_r by lia. rewrite Hlen, Nat.sub_diag.
    rewrite (drop_S _ _ _ Hx). cbn [lookup list_lookup].
    rewrite insert_app_r_alt by lia. rewrite Hlen, Nat.sub_diag.
    cbn [insert list_insert].
    rewrite (take_S_r _ _ _ Hx), map_app, <- app_assoc. cbn [map app].
    do 2 f_equal. unfold f at 2. f_equal.
    apply findPropertyChildrenPaths_ext.
    rewrite <- (drop_S _ _ _ Hx), map_app, map_map.
    rewrite <- (take_drop k properties) at 3. now rewrite map_app. }
  rewrite H by lia. now rewrite firstn_all, drop_all, app_nil_r.
Qed.

End ChildrenPaths.

Section GeneratedDocument.
Import govydoc.

Lemma generateObjectDoc_properties env fuel goType doc :
  generateObjectDoc env fuel goType = Some doc ->
  exists properties,
    Map env fuel (reflect.indirect env goType) "$" [] = Some properties /\
    Properties doc
    = map (fun p => setChildrenPaths p
                      (findPropertyChildrenPaths (Path p) properties))
          properties.
Proof.
  unfold generateObjectDoc.
  destruct (Map env fuel _ "$" []) as [properties|]; [|discriminate].
  intros [= <-]. exists properties. split; [reflexivity|].
  apply addChildrenPaths_loop.
Qed.

Lemma generateObjectDoc_paths env fuel goType doc properties :
  Map env fuel (reflect.indirect env goType) "$" [] = Some properties ->
  generateObjectDoc env fuel goType = Some doc ->
  map Path (Properties doc) = map Path properties.
Proof.
  intros HMap Hdoc.
  destruct (generateObjectDoc_properties _ _ _ _ Hdoc) as (ps & HMap' & ->).
  rewrite HMap in HMap'. injection HMap' as <-.
  rewrite map_map. reflexivity.
Qed.


End GeneratedDocument.



(** The two walks of the claim, evaluated: a sequence member and a mapping
    member of the root struct. *)
Example children_of_ListStruct :
  option_map (fun doc => map (fun p => (govydoc.Path p, govydoc.ChildrenPaths p))
                           (govydoc.Properties doc))
    (govydoc.generateObjectDoc sample.env 4 sample.tListStruct)
  = Some [("$", ["$.items"; "$.items[*]"]); ("$.items", []);
          ("$.items[*]", [])].
Proof. vm_compute. reflexivity. Qed.

Example children_of_MapStruct :
  option_map (fun doc => map (fun p => (govydoc.Path p, govydoc.ChildrenPaths p))
                           (govydoc.Properties doc))
    (govydoc.generateObjectDoc sample.env 4 sample.tMapStruct)
  = Some [("$", ["$.data"]); ("$.data", ["$.data.~"; "$.data.*"]);
          ("$.data.~", []); ("$.data.*", [])].
Proof. vm_compute. reflexivity. Qed.

(* ===================================================================== *)
(** ** Which struct members the walker visits *)
(* ===================================================================== *)

Section WalkedMembers.
Import reflect govydoc.

Lemma outputName_unannotated field :
  TagJson field = "" -> outputName field = None.
Proof. unfold outputName. intros ->. reflexivity. Qed.

Lemma MapVisibleFields_cons Map field rest path properties :
  MapVisibleFields Map (field :: rest) path properties
  = match outputName field with
    | None => MapVisibleFields Map rest path properties
    | Some name =>
        match Map (FieldType field) (path +:+ "." +:+ name) properties with
        | None => None
        | Some properties => MapVisibleFields Map rest path properties
        end
    end.
Proof.
  cbn [MapVisibleFields]. unfold outputName.
  destruct (gostrings.Split (TagJson field) ",") as [|name ?]; [reflexivity|].
  case_decide; reflexivity.
Qed.

Lemma MapVisibleFields_named_only Map fields path properties :
  MapVisibleFields Map fields path properties
  = MapVisibleFields Map
      (filter (fun f => is_Some (outputName f)) fields) path properties.
Proof.
  revert properties. induction fields as [|f fields IH]; intros properties;
    [reflexivity|].
  rewrite MapVisibleFields_cons.
  destruct (outputName f) as [name|] eqn:Hname.
  - rewrite filter_cons_True by (rewrite Hname; eauto).
    rewrite MapVisibleFields_cons, Hname.
    destruct (Map _ _ _); [apply IH|reflexivity].
  - rewrite filter_cons_False by (rewrite Hname; apply is_Some_None).
    apply IH.
Qed.

Lemma Map_struct env fuel typ path properties fs vs :
  Shape (env (indirect env typ)) = KStruct fs vs ->
  Map env (S fuel) typ path properties
  = match typeinfo.Get env fuel (Some (indirect env typ)) with
    | None => None
    | Some ti =>
        MapVisibleFields (Map env fuel) vs path
          (properties ++ [newProperty path ti])
    end.
Proof. intros Hshape. cbn [Map]. now rewrite Hshape. Qed.

End WalkedMembers.

(** C4, as stated, fails: [type Plain struct { NoTag int }] has the
    exported member [NoTag] without annotation, and the walk of [Plain]
    from ["$"] emits the node ["$"] only, none at ["$.NoTag"]. *)
Lemma C4_counterexample :
  reflect.IsExported (sample.field "NoTag" sample.tInt "") = true /\
  reflect.Shape (sample.env sample.tPlain)
  = reflect.KStruct [sample.field "NoTag" sample.tInt ""]
      [sample.field "NoTag" sample.tInt ""] /\
  exists properties,
    govydoc.Map sample.env 3 sample.tPlain "$" [] = Some properties /\
    map govydoc.Path properties = ["$"].
Proof.
  split; [reflexivity|]. split; [reflexivity|].
  eexists. split; vm_compute; reflexivity.
Qed.

(** C4, amended: a struct member that carries no serialization annotation
    has no output name for the walker, and the walk of a struct visits
    exactly the visible members that have one (the first piece of the
    annotation, neither empty nor [-]), each at
    [parent + "." + outputName]; so when no visible member has an output
    name the walk emits the node of the struct alone. *)
Theorem C4_unannotated_members_are_skipped
    (env : reflect.typeEnv) (fuel : nat) (typ : reflect.tid) (path : string)
    (properties : list govydoc.PropertyDoc)
    (fs vs : list reflect.StructField)
    (Hstruct : reflect.Shape (env (reflect.indirect env typ))
               = reflect.KStruct fs vs) :
  (forall field, reflect.TagJson field = "" ->
     govydoc.outputName field = None) /\
  govydoc.Map env (S fuel) typ path properties
  = match typeinfo.Get env fuel (Some (reflect.indirect env typ)) with
    | None => None
    | Some ti =>
        govydoc.MapVisibleFields (govydoc.Map env fuel)
          (filter (fun f => is_Some (govydoc.outputName f)) vs) path
          (properties ++ [govydoc.newProperty path ti])
    end /\
  (Forall (fun f => govydoc.outputName f = None) vs ->
   govydoc.Map env (S fuel) typ path properties
   = match typeinfo.Get env fuel (Some (reflect.indirect env typ)) with
     | None => None
     | Some ti => Some (properties ++ [govydoc.newProperty path ti])
     end).
Proof.
  split; [exact outputName_unannotated|].
  rewrite (Map_struct env fuel typ path properties fs vs Hstruct).
  split.
  - destruct (typeinfo.Get env fuel _); [|reflexivity].
    apply MapVisibleFields_named_only.
  - intros Hnone. destruct (typeinfo.Get env fuel _); [|reflexivity].
    rewrite MapVisibleFields_named_only.
    replace (filter (fun f => is_Some (govydoc.outputName f)) vs)
      with (@nil reflect.StructField); [reflexivity|].
    symmetry. clear Hstruct.
    induction Hnone as [|f vs' Hf _ IH]; [reflexivity|].
    rewrite filter_cons_False by (rewrite Hf; apply is_Some_None).
    exact IH.
Qed.

Lemma C4_unannotated_members_are_skipped_witness :
  reflect.Shape (sample.env (reflect.indirect sample.env sample.tPlain))
  = reflect.KStruct [sample.field "NoTag" sample.tInt ""]
      [sample.field "NoTag" sample.tInt ""] /\
  govydoc.outputName (sample.field "NoTag" sample.tInt "") = None.
Proof.
  split; [reflexivity|].
  apply (proj1 (C4_unannotated_members_are_skipped sample.env 2
                  sample.tPlain "$" [] _ _ eq_refl)).
  reflexivity.
Defined.

(* ===================================================================== *)
(** ** Exclusion of paths by [postProcessProperties] *)
(* ===================================================================== *)

Section Exclusion.
Import govydoc.

Lemma slicesContains_spec (l : list string) (s : string) :
  slicesContains l s = true <-> s ∈ l.
Proof.
  unfold slicesContains. rewrite existsb_exists. split.
  - intros (x & Hin & Heq). apply String.eqb_eq in Heq as ->.
    now apply list_elem_of_In.
  - intros Hin. exists s. split; [now apply list_elem_of_In|].
    apply String.eqb_refl.
Qed.

Lemma generateFormatters_Path property :
  Path (fold_left (fun property formatter => formatter property)
          generateFormatters property)
  = Path property.
Proof.
  cbn. unfold extractDeprecatedInformation.
  repeat match goal with |- context [if ?b then _ else _] => destruct b end;
    reflexivity.
Qed.

Lemma postProcessLoop_paths excluded properties :
  map Path (postProcessLoop excluded generateFormatters properties)
  = filter (fun path => path ∉ excluded) (map Path properties).
Proof.
  induction properties as [|p properties IH]; [reflexivity|].
  cbn [postProcessLoop map].
  destruct (slicesContains excluded (Path p)) eqn:Hin.
  - apply slicesContains_spec in Hin.
    rewrite filter_cons_False by tauto. exact IH.
  - rewrite filter_cons_True.
    + cbn [map]. now rewrite generateFormatters_Path, IH.
    + intros Hin'. apply slicesContains_spec in Hin'. congruence.
Qed.

End Exclusion.

(** C5, as stated, fails: with the exclusion list
    [["$.organization"; "$.secret"]] and the root
    [type Account struct { Name string `json:"name"`; Secret Secret `json:"secret"` }],
    where [type Secret struct { Token string `json:"token"` }], the
    post-processed document has no node ["$.secret"] but keeps the node
    ["$.secret.token"]. *)
Lemma C5_counterexample :
  exists doc,
    govydoc.generateObjectDoc sample.env 4 sample.tAccount = Some doc /\
    map govydoc.Path
      (govydoc.Properties
         (govydoc.postProcessPropertiesWith
            (govydoc.filterProperties ++ ["$.secret"]) doc
            govydoc.generateFormatters))
    = ["$"; "$.name"; "$.secret.token"].
Proof.
  eexists. split; [vm_compute; reflexivity|]. vm_compute. reflexivity.
Qed.

(** C5, amended: given an exclusion list containing ["$.secret"], the
    post-processed document's properties contain no node with path
    ["$.secret"]; exclusion is by equality of paths, so the paths of the
    result are, in order, the paths of the document that are not in the
    list, those of descendants of ["$.secret"] included. *)
Theorem C5_exclusion_is_by_exact_path
    (excluded : list string) (doc : govydoc.ObjectDoc)
    (Hsecret : "$.secret" ∈ excluded) :
  (forall node,
     node ∈ govydoc.Properties
              (govydoc.postProcessPropertiesWith excluded doc
                 govydoc.generateFormatters) ->
     govydoc.Path node <> "$.secret") /\
  map govydoc.Path
    (govydoc.Properties
       (govydoc.postProcessPropertiesWith excluded doc
          govydoc.generateFormatters))
  = filter (fun path => path ∉ excluded)
      (map govydoc.Path (govydoc.Properties doc)).
Proof.
  assert (map govydoc.Path
            (govydoc.Properties
               (govydoc.postProcessPropertiesWith excluded doc
                  govydoc.generateFormatters))
          = filter (fun path => path ∉ excluded)
              (map govydoc.Path (govydoc.Properties doc))) as Hpaths
    by apply postProcessLoop_paths.
  split; [|exact Hpaths].
  intros node Hnode Heq.
  assert (govydoc.Path node
          ∈ filter (fun path => path ∉ excluded)
              (map govydoc.Path (govydoc.Properties doc))) as Hin.
  { rewrite <- Hpaths. now apply list_elem_of_fmap_2. }
  apply list_elem_of_filter in Hin as [Hnot _]. congruence.
Qed.

Lemma C5_exclusion_is_by_exact_path_witness :
  "$.secret" ∈ govydoc.filterProperties ++ ["$.secret"] /\
  map govydoc.Path
    (govydoc.Properties
       (govydoc.postProcessPropertiesWith
          (govydoc.filterProperties ++ ["$.secret"])
          {| govydoc.Name := "Account";
             govydoc.Properties :=
               [sample.property "$" "" ""; sample.property "$.secret" "" "";
                sample.property "$.secret.token" "" ""];
             govydoc.Doc := "" |}
          govydoc.generateFormatters))
  = ["$"; "$.secret.token"].
Proof.
  assert ("$.secret" ∈ govydoc.filterProperties ++ ["$.secret"]) as Hin
    by (apply (list_elem_of_lookup_2 _ 1); reflexivity).
  split; [exact Hin|].
  rewrite (proj2 (C5_exclusion_is_by_exact_path _ _ Hin)).
  vm_compute. reflexivity.
Defined.

(* ===================================================================== *)
(** ** The paths of a generated document *)
(* ===================================================================== *)

Section WalkPaths.
Import reflect govydoc.

Lemma plainName_cons c name :
  plainName (String c name) ->
  c <> "."%char /\ c <> "["%char /\ plainName name.
Proof.
  unfold plainName. rewrite !Contains_char_cons.
  intros [[H1 H2]%orb_false_iff [H3 H4]%orb_false_iff].
  apply Ascii.eqb_neq in H1, H3. auto.
Qed.

Lemma segment_unique n1 n2 s1 s2 :
  plainName n1 -> plainName n2 -> delimited s1 -> delimited s2 ->
  n1 +:+ s1 = n2 +:+ s2 -> n1 = n2.
Proof.
  revert n2. induction n1 as [|c1 n1 IH]; intros [|c2 n2] Hp1 Hp2 Hd1 Hd2 Heq.
  - reflexivity.
  - change ("" +:+ s1) with s1 in Heq. rewrite append_cons in Heq. subst s1.
    apply plainName_cons in Hp2 as (? & ? & _). destruct Hd1; contradiction.
  - change ("" +:+ s2) with s2 in Heq. rewrite append_cons in Heq. subst s2.
    apply plainName_cons in Hp1 as (? & ? & _). destruct Hd2; contradiction.
  - rewrite !append_cons in Heq. injection Heq as -> Heq.
    apply plainName_cons in Hp1 as (_ & _ & Hp1).
    apply plainName_cons in Hp2 as (_ & _ & Hp2).
    f_equal. eauto.
Qed.

Lemma append_longer (a b : string) : b <> "" -> a +:+ b <> a.
Proof. intros Hb Heq. now apply append_self_nil in Heq. Qed.

Lemma subtreePaths_leaf path : subtreePaths path [path].
Proof.
  exists []. split; [reflexivity|]. split; [apply NoDup_singleton|].
  split.
  - intros q ->%list_elem_of_singleton. exists "".
    now rewrite append_nil_r.
  - intros q Hq. inversion Hq.
Qed.

Lemma memberPaths_nil path : memberPaths path [] [].
Proof.
  split; [constructor|]. split; intros q Hq; inversion Hq.
Qed.

Lemma memberPaths_cons path name names paths1 paths2 :
  plainName name -> Forall plainName names -> name ∉ names ->
  subtreePaths (path +:+ "." +:+ name) paths1 ->
  memberPaths path names paths2 ->
  memberPaths path (name :: names) (paths1 ++ paths2).
Proof.
  intros Hplain Hplains Hfresh (rest & -> & Hnodup1 & Hext1 & Hparent1)
    (Hnodup2 & Hext2 & Hparent2).
  split; [|split].
  - apply NoDup_app. split; [exact Hnodup1|]. split; [|exact Hnodup2].
    intros q Hq1 Hq2.
    destruct (Hext1 q Hq1) as (s1 & -> & Hd1).
    destruct (Hext2 _ Hq2) as (name' & s2 & Hin & Heq & Hd2).
    rewrite !append_assoc in Heq. do 2 apply append_inv_head in Heq.
    apply segment_unique in Heq; auto.
    + congruence.
    + rewrite Forall_forall in Hplains. auto.
  - intros q [Hq|Hq]%elem_of_app.
    + destruct (Hext1 q Hq) as (s1 & -> & Hd1). exists name, s1.
      rewrite !append_assoc. rewrite elem_of_cons. auto.
    + destruct (Hext2 q Hq) as (name' & s2 & Hin & Heq & Hd2).
      exists name', s2. rewrite elem_of_cons. auto.
  - intros q [Hq|Hq]%elem_of_app.
    + apply elem_of_cons in Hq as [->|Hq].
      * left. exists name. rewrite elem_of_cons. auto.
      * right. destruct (Hparent1 q Hq) as (q' & Hq' & Hchild).
        exists q'. rewrite elem_of_app. auto.
    + destruct (Hparent2 q Hq) as [(name' & Hin & ->)|(q' & Hq' & Hchild)].
      * left. exists name'. rewrite elem_of_cons. auto.
      * right. exists q'. rewrite elem_of_app. auto.
Qed.

Lemma subtreePaths_members path names paths :
  Forall plainName names ->
  memberPaths path names paths -> subtreePaths path (path :: paths).
Proof.
  intros Hplains (Hnodup & Hext & Hparent). exists paths.
  split; [reflexivity|]. split; [|split].
  - apply NoDup_cons. split; [|exact Hnodup]. intros Hin.
    destruct (Hext _ Hin) as (name & s & _ & Heq & _).
    symmetry in Heq. now apply append_longer in Heq.
  - intros q [->|Hq]%elem_of_cons.
    + exists "". now rewrite append_nil_r.
    + destruct (Hext q Hq) as (name & s & _ & -> & _).
      exists ("." +:+ name +:+ s). split; [reflexivity|]. now left.
  - intros q Hq.
    destruct (Hparent q Hq) as [(name & Hin & ->)|(q' & Hq' & Hchild)].
    + exists path. split; [apply elem_of_cons; auto|]. right. exists name.
      split; [reflexivity|]. rewrite Forall_forall in Hplains.
      now apply Hplains.
    + exists q'. split; [apply elem_of_cons; auto|exact Hchild].
Qed.

Lemma subtreePaths_element path paths :
  subtreePaths (path +:+ "[*]") paths -> subtreePaths path (path :: paths).
Proof.
  intros (rest & -> & Hnodup & Hext & Hparent).
  exists ((path +:+ "[*]") :: rest).
  split; [reflexivity|]. split; [|split].
  - apply NoDup_cons. split; [|exact Hnodup]. intros Hin.
    destruct (Hext _ Hin) as (s & Heq & _). rewrite append_assoc in Heq.
    symmetry in Heq. now apply append_longer in Heq.
  - intros q [->|Hq]%elem_of_cons.
    + exists "". now rewrite append_nil_r.
    + destruct (Hext q Hq) as (s & -> & _). exists ("[*]" +:+ s).
      split; [now rewrite append_assoc|]. now right.
  - intros q [->|Hq]%elem_of_cons.
    + exists path. split; [apply elem_of_cons; auto|]. now left.
    + destruct (Hparent q Hq) as (q' & Hq' & Hchild).
      exists q'. split; [apply elem_of_cons; auto|exact Hchild].
Qed.

Lemma omap_outputName_cons f fields :
  omap outputName (f :: fields)
  = match outputName f with
    | Some name => name :: omap outputName fields
    | None => omap outputName fields
    end.
Proof. reflexivity. Qed.

Lemma MapVisibleFields_paths Map fields path :
  Forall (fun f => appendsSubtree Map (FieldType f)) fields ->
  NoDup (omap outputName fields) ->
  Forall plainName (omap outputName fields) ->
  forall props props',
    MapVisibleFields Map fields path props = Some props' ->
    exists new,
      props' = props ++ new /\
      memberPaths path (omap outputName fields) (map Path new).
Proof.
  induction 1 as [|f fields Hf _ IH]; intros Hnodup Hplain props props' Hrun.
  - injection Hrun as <-. exists []. rewrite app_nil_r.
    split; [reflexivity|apply memberPaths_nil].
  - rewrite MapVisibleFields_cons in Hrun.
    rewrite omap_outputName_cons in Hnodup, Hplain |- *.
    destruct (outputName f) as [name|]; [|now apply IH].
    apply NoDup_cons in Hnodup as [Hfresh Hnodup].
    apply Forall_cons in Hplain as [Hname Hplain].
    destruct (Map (FieldType f) (path +:+ "." +:+ name) props)
      as [props1|] eqn:Hfield; [|discriminate].
    destruct (Hf _ _ _ Hfield) as (new1 & -> & Hsub).
    destruct (IH Hnodup Hplain _ _ Hrun) as (new2 & -> & Hmem).
    exists (new1 ++ new2). rewrite app_assoc. split; [reflexivity|].
    rewrite map_app. now apply memberPaths_cons.
Qed.

Lemma plainName_key : plainName "~".
Proof. split; reflexivity. Qed.

Lemma plainName_value : plainName "*".
Proof. split; reflexivity. Qed.

Lemma Map_paths env fuel typ :
  distinctOutputNames env -> appendsSubtree (Map env fuel) typ.
Proof.
  intros Hnames. revert typ.
  induction fuel as [|fuel IH]; intros typ path props props' Hrun;
    [discriminate|].
  cbn [Map] in Hrun.
  destruct (typeinfo.Get env fuel _) as [ti|]; [|discriminate].
  set (node := newProperty path ti) in *.
  destruct (Shape (env (indirect env typ))) as [k|e|e|k e|fs vs] eqn:Hshape.
  - injection Hrun as <-. exists [node]. split; [reflexivity|].
    apply subtreePaths_leaf.
  - injection Hrun as <-. exists [node]. split; [reflexivity|].
    apply subtreePaths_leaf.
  - destruct (IH _ _ _ _ Hrun) as (new & -> & Hsub).
    exists (node :: new). rewrite <- app_assoc. split; [reflexivity|].
    now apply subtreePaths_element.
  - destruct (Map env fuel k (path +:+ ".~") (props ++ [node]))
      as [props1|] eqn:Hkey; [|discriminate].
    destruct (IH _ _ _ _ Hkey) as (new1 & -> & Hsub1).
    destruct (IH _ _ _ _ Hrun) as (new2 & -> & Hsub2).
    exists (node :: new1 ++ new2). rewrite <- !app_assoc.
    split; [reflexivity|]. cbn [map Path newProperty node].
    apply (subtreePaths_members path ["~"; "*"]).
    { repeat constructor; reflexivity. }
    rewrite map_app.
    apply memberPaths_cons;
      [apply plainName_key|repeat constructor; reflexivity
      |now intros [=]%list_elem_of_singleton|exact Hsub1|].
    rewrite <- (app_nil_r (map Path new2)).
    apply memberPaths_cons;
      [apply plainName_value|constructor|intros H; inversion H|exact Hsub2
      |apply memberPaths_nil].
  - destruct (Hnames _ _ _ Hshape) as [Hnodup Hplain].
    destruct (MapVisibleFields_paths (Map env fuel) vs path) with
      (props := props ++ [node]) (props' := props')
      as (new & -> & Hmem); auto.
    { apply Forall_forall. intros f _. apply IH. }
    exists (node :: new). rewrite <- app_assoc. split; [reflexivity|].
    now apply (subtreePaths_members path (omap outputName vs)).
Qed.

End WalkPaths.

(** C7, as stated, fails: the walk of
    [type Twice struct { A int `json:"x"`; B int `json:"x"` }] emits the
    path ["$.x"] twice. *)
Lemma C7_counterexample :
  exists doc,
    govydoc.generateObjectDoc sample.withTwice 3 sample.tTwice = Some doc /\
    map govydoc.Path (govydoc.Properties doc) = ["$"; "$.x"; "$.x"] /\
    ~ NoDup (map govydoc.Path (govydoc.Properties doc)).
Proof.
  eexists. split; [vm_compute; reflexivity|].
  split; [vm_compute; reflexivity|].
  intros Hnodup. apply NoDup_cons in Hnodup as [_ Hnodup].
  apply NoDup_cons in Hnodup as [Hnotin _]. apply Hnotin. left.
Qed.

(** C7, amended: when in every struct the output names of the members are
    pairwise distinct and contain neither [.] nor [[], all property paths
    of a generated document are pairwise distinct, and for every property
    node but the root ["$"] the document has a node whose path is the
    node's path without its last step (the trailing [[*]], or the last
    [.] and the segment after it). *)
Theorem C7_paths_distinct_and_parents_present
    (env : reflect.typeEnv) (fuel : nat) (goType : reflect.tid)
    (doc : govydoc.ObjectDoc)
    (Hnames : govydoc.distinctOutputNames env)
    (Hdoc : govydoc.generateObjectDoc env fuel goType = Some doc) :
  NoDup (map govydoc.Path (govydoc.Properties doc)) /\
  (forall node,
     node ∈ govydoc.Properties doc -> govydoc.Path node <> "$" ->
     exists parent,
       parent ∈ govydoc.Properties doc /\
       govydoc.childOf (govydoc.Path parent) (govydoc.Path node)).
Proof.
  destruct (generateObjectDoc_properties _ _ _ _ Hdoc) as (ps & HMap & _).
  pose proof (generateObjectDoc_paths _ _ _ _ _ HMap Hdoc) as Hpaths.
  destruct (Map_paths env fuel _ Hnames _ _ _ HMap)
    as (new & Hnew & rest & Hrest & Hnodup & _ & Hparent).
  cbn [app] in Hnew. subst new. rewrite <- Hpaths in Hrest, Hnodup, Hparent.
  split; [exact Hnodup|].
  intros node Hnode Hroot.
  assert (govydoc.Path node ∈ rest) as Hin.
  { assert (govydoc.Path node
            ∈ map govydoc.Path (govydoc.Properties doc)) as Hn
      by now apply (list_elem_of_fmap_2 govydoc.Path).
    rewrite Hrest in Hn. apply elem_of_cons in Hn as [?|?]; tauto. }
  destruct (Hparent _ Hin) as (q' & Hq' & Hchild).
  apply list_elem_of_fmap in Hq' as (parent & -> & Hin').
  exists parent. auto.
Qed.

Lemma sample_distinctOutputNames : govydoc.distinctOutputNames sample.env.
Proof.
  intros t fs vs Hshape.
  do 17 (destruct t as [|t];
         [cbn in Hshape;
          first [discriminate
                |injection Hshape as <- <-;
                 (split; [apply (bool_decide_unpack _); vm_compute; exact I
                         |vm_compute; repeat constructor])]|]).
  discriminate.
Qed.

Lemma C7_paths_distinct_and_parents_present_witness :
  govydoc.distinctOutputNames sample.env /\
  exists doc,
    govydoc.generateObjectDoc sample.env 4 sample.tAccount = Some doc /\
    NoDup (map govydoc.Path (govydoc.Properties doc)).
Proof.
  split; [exact sample_distinctOutputNames|].
  eexists. split; [vm_compute; reflexivity|].
  refine (proj1 (C7_paths_distinct_and_parents_present sample.env 4
                   sample.tAccount _ sample_distinctOutputNames _)).
  vm_compute. reflexivity.
Defined.

(* ===================================================================== *)
(** ** The text transforms of post-processing *)
(* ===================================================================== *)

Section TextTransforms.
Import gostrings govydoc.

Lemma Contains_tail c s w : Contains (String c s) w = false ->
  HasPrefix (String c s) w = false /\ Contains s w = false.
Proof. cbn [Contains]. apply orb_false_iff. Qed.


Lemma HasPrefix_app s t w : HasPrefix s w = true -> HasPrefix (s +:+ t) w = true.
Proof.
  revert s. induction w as [|c w IH]; intros s; [reflexivity|].
  destruct s as [|d s]; [discriminate|]. rewrite append_cons.
  cbn [HasPrefix]. destruct (Ascii.eqb d c); [apply IH|discriminate].
Qed.









Lemma enumReplaceAll_prefix s : exists t, s = enumReplaceAll s +:+ t.
Proof.
  induction s as [|c s [t IH]]; [now exists ""|]. cbn [enumReplaceAll].
  destruct (HasPrefix (String c s) "ENUM"); [now exists (String c s)|].
  exists t. rewrite append_cons. now f_equal.
Qed.

Lemma enumReplaceAll_clean s : Contains (enumReplaceAll s) "ENUM" = false.
Proof.
  induction s as [|c s IH]; [reflexivity|]. cbn [enumReplaceAll].
  destruct (HasPrefix (String c s) "ENUM") eqn:Hp; [reflexivity|].
  cbn [Contains]. rewrite IH, orb_false_r.
  destruct (HasPrefix (String c (enumReplaceAll s)) "ENUM") eqn:Hq;
    [|reflexivity].
  destruct (enumReplaceAll_prefix s) as [t Ht].
  apply (HasPrefix_app _ t) in Hq. rewrite append_cons, <- Ht in Hq.
  congruence.
Qed.

Lemma enumReplaceAll_fixed s :
  Contains s "ENUM" = false -> enumReplaceAll s = s.
Proof.
  induction s as [|c s IH]; intros H; [reflexivity|].
  apply Contains_tail in H as [Hp Hc]. cbn [enumReplaceAll].
  rewrite Hp. f_equal. auto.
Qed.









End TextTransforms.




(** The example of the specification: the deprecation note is moved from
    the type doc to the deprecation attribute. *)
Example deprecation_is_extracted :
  map (fun p => (govydoc.TypeDoc p, govydoc.DeprecatedDoc p))
    (govydoc.Properties
       (govydoc.postProcessProperties
          {| govydoc.Name := "";
             govydoc.Properties :=
               [sample.property "$"
                  ("Foo does X." +:+ String "010" (String "010" "")
                   +:+ "Deprecated: use Bar instead.") ""];
             govydoc.Doc := "" |}
          govydoc.generateFormatters))
  = [("Foo does X.", "use Bar instead.")].
Proof. vm_compute. reflexivity. Qed.

(* ===================================================================== *)
(** ** Properties of [pathutils.FindModuleRoot] *)
(* ===================================================================== *)

Section ModuleRoot.
Import pathutils.
Variable Stat : directory -> statResult.

Lemma searchUp_passes dir parent c :
  dir = c :: parent -> passes Stat dir ->
  searchUp Stat dir = searchUp Stat parent.
Proof.
  intros -> [H|H]; cbn [searchUp]; now rewrite H.
Qed.

Lemma searchUp_found cwd root :
  searchUp Stat cwd = inl root <->
  exists nearer,
    cwd = nearer ++ root /\ Stat root = IsFile /\
    forall k, k < length nearer -> passes Stat (drop k cwd).
Proof.
  split.
  - induction cwd as [|c parent IH]; cbn [searchUp].
    + destruct (Stat []) eqn:Hs; try discriminate.
      intros [= <-]. exists []. split; [reflexivity|].
      split; [exact Hs|]. cbn. lia.
    + destruct (Stat (c :: parent)) eqn:Hs; try discriminate.
      * intros H. destruct (IH H) as (nearer & -> & Hroot & Hpass).
        exists (c :: nearer). split; [reflexivity|]. split; [exact Hroot|].
        intros [|k] Hk; [now left|]. apply Hpass. cbn in Hk. lia.
      * intros H. destruct (IH H) as (nearer & -> & Hroot & Hpass).
        exists (c :: nearer). split; [reflexivity|]. split; [exact Hroot|].
        intros [|k] Hk; [now right|]. apply Hpass. cbn in Hk. lia.
      * intros [= <-]. exists []. split; [reflexivity|].
        split; [exact Hs|]. cbn. lia.
  - intros (nearer & -> & Hroot & Hpass).
    induction nearer as [|c nearer IH].
    + cbn [app]. destruct root; cbn [searchUp]; now rewrite Hroot.
    + cbn [app]. rewrite (searchUp_passes _ (nearer ++ root) c eq_refl).
      * apply IH. intros k Hk. apply (Hpass (S k)). cbn. lia.
      * apply (Hpass 0). cbn. lia.
Qed.

Lemma searchUp_not_found cwd :
  searchUp Stat cwd = inr GoModNotFound <->
  forall k, k <= length cwd -> passes Stat (drop k cwd).
Proof.
  induction cwd as [|c parent IH]; cbn [searchUp].
  - split.
    + intros H k _. rewrite drop_nil. unfold passes.
      destruct (Stat []); try discriminate; auto.
    + intros H. assert (passes Stat []) as [Hp|Hp]
        by (apply (H 0); cbn; lia).
      * now rewrite Hp.
      * now rewrite Hp.
  - split.
    + intros H [|k] Hk.
      * unfold passes. cbn [drop].
        destruct (Stat (c :: parent)); try discriminate; auto.
      * cbn [drop]. apply IH; [|cbn in Hk; lia].
        destruct (Stat (c :: parent)); try discriminate; exact H.
    + intros H.
      assert (searchUp Stat parent = inr GoModNotFound) as Hparent.
      { apply IH. intros k Hk. apply (H (S k)). cbn. lia. }
      assert (passes Stat (c :: parent)) as [Hp|Hp]
        by (apply (H 0); cbn; lia).
      * now rewrite Hp.
      * now rewrite Hp.
Qed.

Lemma searchUp_stat_failed cwd err dir :
  searchUp Stat cwd = inr (StatFailed err dir) <->
  exists nearer,
    cwd = nearer ++ dir /\ Stat dir = StatError err /\
    forall k, k < length nearer -> passes Stat (drop k cwd).
Proof.
  split.
  - induction cwd as [|c parent IH]; cbn [searchUp].
    + destruct (Stat []) eqn:Hs; try discriminate.
      intros [= <- <-]. exists []. split; [reflexivity|].
      split; [exact Hs|]. cbn. lia.
    + destruct (Stat (c :: parent)) eqn:Hs; try discriminate.
      * intros H. destruct (IH H) as (nearer & -> & Hdir & Hpass).
        exists (c :: nearer). split; [reflexivity|]. split; [exact Hdir|].
        intros [|k] Hk; [now left|]. apply Hpass. cbn in Hk. lia.
      * intros [= <- <-]. exists []. split; [reflexivity|].
        split; [exact Hs|]. cbn. lia.
      * intros H. destruct (IH H) as (nearer & -> & Hdir & Hpass).
        exists (c :: nearer). split; [reflexivity|]. split; [exact Hdir|].
        intros [|k] Hk; [now right|]. apply Hpass. cbn in Hk. lia.
  - intros (nearer & -> & Hdir & Hpass).
    induction nearer as [|c nearer IH].
    + cbn [app]. destruct dir; cbn [searchUp]; now rewrite Hdir.
    + cbn [app]. rewrite (searchUp_passes _ (nearer ++ dir) c eq_refl).
      * apply IH. intros k Hk. apply (Hpass (S k)). cbn. lia.
      * apply (Hpass 0). cbn. lia.
Qed.

End ModuleRoot.

(** X1: [FindModuleRoot] returns a directory exactly when that directory is
    the working directory or one of its ancestors, its [go.mod] exists and
    is not a directory, and every directory nearer to the working directory
    has no [go.mod] or has a directory of that name: the nearest [go.mod]
    file wins and a directory named [go.mod] is passed over. *)
Theorem X1_FindModuleRoot_returns_nearest_go_mod
    (Stat : pathutils.directory -> pathutils.statResult)
    (cwd root : pathutils.directory) :
  pathutils.FindModuleRoot (inl cwd) Stat = inl root <->
  exists nearer,
    cwd = nearer ++ root /\ Stat root = pathutils.IsFile /\
    forall k, k < length nearer -> pathutils.passes Stat (drop k cwd).
Proof. apply searchUp_found. Qed.

(** X2: [FindModuleRoot] fails with "go.mod not found" exactly when no
    directory from the working directory up to the root has a [go.mod]
    that is a file or whose [os.Stat] fails otherwise; and it fails with
    "failed to get current working directory" whenever [os.Getwd] fails. *)
Theorem X2_FindModuleRoot_not_found
    (Stat : pathutils.directory -> pathutils.statResult)
    (cwd : pathutils.directory) (err : string) :
  (pathutils.FindModuleRoot (inl cwd) Stat = inr pathutils.GoModNotFound <->
   forall k, k <= length cwd -> pathutils.passes Stat (drop k cwd)) /\
  pathutils.FindModuleRoot (inr err) Stat = inr (pathutils.GetwdFailed err).
Proof. split; [apply searchUp_not_found|reflexivity]. Qed.

(** X3: [FindModuleRoot] fails with "failed to stat" for a directory
    exactly when [os.Stat] of that directory's [go.mod] fails with an
    error other than "not exist", the directory is the working directory
    or one of its ancestors, and every nearer directory was passed over:
    the search does not go on above a [go.mod] it cannot stat. *)
Theorem X3_FindModuleRoot_stops_at_stat_failure
    (Stat : pathutils.directory -> pathutils.statResult)
    (cwd dir : pathutils.directory) (err : string) :
  pathutils.FindModuleRoot (inl cwd) Stat
  = inr (pathutils.StatFailed err dir) <->
  exists nearer,
    cwd = nearer ++ dir /\ Stat dir = pathutils.StatError err /\
    forall k, k < length nearer -> pathutils.passes Stat (drop k cwd).
Proof. apply searchUp_stat_failed. Qed.

(* ===================================================================== *)
(** ** Properties of [mergeDocs] *)
(* ===================================================================== *)

Section Merge.
Import govydoc generate.

(** A loop that rewrites every element of a slice in place, from the
    element itself, is a map. *)
Lemma inplace_loop_is_map {A : Type} (g : A -> A) (l : list A) :
  fold_left (fun l i => match l !! i with
                        | Some x => <[i := g x]> l
                        | None => l
                        end)
    (seq 0 (length l)) l
  = map g l.
Proof.
  assert (forall k, k <= length l ->
            fold_left (fun l i => match l !! i with
                                  | Some x => <[i := g x]> l
                                  | None => l
                                  end) (seq 0 k) l
            = map g (take k l) ++ drop k l) as H.
  { induction k as [|k IH]; intros Hk; [reflexivity|].
    rewrite seq_S, fold_left_app, IH by lia. cbn [fold_left Nat.add].
    destruct (lookup_lt_is_Some_2 l k) as [x Hx]; [lia|].
    assert (length (map g (take k l)) = k) as Hlen
      by (rewrite length_map, length_take; lia).
    rewrite lookup_app_r by lia. rewrite Hlen, Nat.sub_diag.
    rewrite (drop_S _ _ _ Hx). cbn [lookup list_lookup].
    rewrite insert_app_r_alt by lia. rewrite Hlen, Nat.sub_diag.
    cbn [insert list_insert].
    rewrite (take_S_r _ _ _ Hx), map_app, <- app_assoc. reflexivity. }
  rewrite H by lia. now rewrite firstn_all, drop_all, app_nil_r.
Qed.

Lemma setFieldDocAt_sans fieldPath doc properties :
  map sansFieldDoc (setFieldDocAt fieldPath doc properties)
  = map sansFieldDoc properties.
Proof.
  induction properties as [|p rest IH]; [reflexivity|].
  cbn [setFieldDocAt]. case_decide; cbn [map]; [reflexivity|].
  now rewrite IH.
Qed.

Lemma mergeFields_sans path fields properties :
  map sansFieldDoc (mergeFields path fields properties)
  = map sansFieldDoc properties.
Proof.
  unfold mergeFields. rewrite map_fold_foldr.
  induction (map_to_list fields) as [|[name field] l IH]; [reflexivity|].
  cbn [foldr uncurry]. unfold mergeField at 1.
  now rewrite setFieldDocAt_sans.
Qed.

Lemma mergeProperty_sans goDocs properties i :
  map sansFieldDoc (mergeProperty goDocs properties i)
  = match map sansFieldDoc properties !! i with
    | Some q => <[i := mergedSansFieldDoc goDocs q]> (map sansFieldDoc properties)
    | None => map sansFieldDoc properties
    end.
Proof.
  unfold mergeProperty. rewrite list_lookup_fmap.
  destruct (properties !! i) as [p|] eqn:Hp; [|reflexivity].
  cbn [fmap option_fmap option_map].
  assert (map sansFieldDoc properties !! i = Some (sansFieldDoc p)) as Hq
    by (rewrite list_lookup_fmap, Hp; reflexivity).
  unfold mergedSansFieldDoc.
  assert (key (sansFieldDoc p) = key p) as Hkey by now destruct p.
  assert (TypeInfo (sansFieldDoc p) = TypeInfo p) as Hti by now destruct p.
  rewrite Hkey, Hti.
  case_decide.
  - symmetry. apply list_insert_id. rewrite Hq. clear. destruct p.
    reflexivity.
  - destruct (goDocs !! key p) as [goDoc|].
    + change (map sansFieldDoc ?l) with (sansFieldDoc <$> l).
      rewrite list_fmap_insert.
      change (sansFieldDoc <$> ?l) with (map sansFieldDoc l).
      rewrite mergeFields_sans. clear. destruct p. reflexivity.
    + symmetry. apply list_insert_id. rewrite Hq. clear. destruct p.
      reflexivity.
Qed.

Lemma mergeDocs_sans goDocs properties :
  map sansFieldDoc
    (fold_left (mergeProperty goDocs) (seq 0 (length properties)) properties)
  = map (mergedSansFieldDoc goDocs) (map sansFieldDoc properties).
Proof.
  rewrite <- (inplace_loop_is_map (mergedSansFieldDoc goDocs)).
  rewrite length_map. generalize (seq 0 (length properties)).
  intros idxs. revert properties.
  induction idxs as [|i idxs IH]; intros properties; [reflexivity|].
  cbn [fold_left]. rewrite IH, mergeProperty_sans. reflexivity.
Qed.

Lemma mergedSansFieldDoc_sans goDocs p :
  mergedSansFieldDoc goDocs (sansFieldDoc p) = mergedSansFieldDoc goDocs p.
Proof. now destruct p. Qed.

Lemma setFieldDocAt_other fieldPath doc properties j q :
  properties !! j = Some q -> Path q <> fieldPath ->
  setFieldDocAt fieldPath doc properties !! j = Some q.
Proof.
  revert j. induction properties as [|p rest IH]; intros j Hj Hne;
    [discriminate|].
  cbn [setFieldDocAt]. destruct j as [|j].
  - injection Hj as ->. rewrite decide_False by congruence. reflexivity.
  - case_decide; [exact Hj|]. cbn. apply IH; assumption.
Qed.

Lemma setFieldDocAt_target fieldPath doc properties j q :
  NoDup (map Path properties) ->
  properties !! j = Some q -> Path q = fieldPath ->
  setFieldDocAt fieldPath doc properties !! j = Some (withFieldDoc q doc).
Proof.
  revert j. induction properties as [|p rest IH]; intros j Hnodup Hj Heq;
    [discriminate|].
  cbn [map] in Hnodup. apply NoDup_cons in Hnodup as [Hfresh Hnodup].
  cbn [setFieldDocAt]. destruct j as [|j].
  - injection Hj as ->. rewrite decide_True by congruence. reflexivity.
  - cbn in Hj. case_decide as Hp.
    + exfalso. apply Hfresh. rewrite <- Hp, <- Heq.
      apply list_elem_of_In, in_map, list_elem_of_In.
      eapply list_elem_of_lookup_2, Hj.
    + cbn. apply IH; assumption.
Qed.

Lemma map_Path_sans properties :
  map Path (map sansFieldDoc properties) = map Path properties.
Proof. rewrite map_map. reflexivity. Qed.

Lemma setFieldDocAt_paths fieldPath doc properties :
  map Path (setFieldDocAt fieldPath doc properties) = map Path properties.
Proof.
  rewrite <- map_Path_sans, setFieldDocAt_sans. apply map_Path_sans.
Qed.

(** The member loop over the entries [l], in their order. *)
Lemma mergeEntries_other path (l : list (string * godoc.Doc)) properties j q :
  properties !! j = Some q ->
  (forall name field, (name, field) ∈ l -> path +:+ "." +:+ name <> Path q) ->
  foldr (uncurry (mergeField path)) properties l !! j = Some q.
Proof.
  intros Hj. induction l as [|[name field] l IH]; intros Hne; [exact Hj|].
  cbn [foldr uncurry]. unfold mergeField at 1. apply setFieldDocAt_other.
  - apply IH. intros n f Hin. apply (Hne n f). now right.
  - intros Heq. apply (Hne name field); [now left|congruence].
Qed.

Lemma mergeEntries_paths path (l : list (string * godoc.Doc)) properties :
  map Path (foldr (uncurry (mergeField path)) properties l)
  = map Path properties.
Proof.
  induction l as [|[name field] l IH]; [reflexivity|].
  cbn [foldr uncurry]. unfold mergeField at 1.
  now rewrite setFieldDocAt_paths.
Qed.

Lemma mergeEntries_target path (l : list (string * godoc.Doc)) properties
    j q name field :
  NoDup (map Path properties) -> NoDup l.*1 ->
  properties !! j = Some q -> (name, field) ∈ l ->
  Path q = path +:+ "." +:+ name ->
  foldr (uncurry (mergeField path)) properties l !! j
  = Some (withFieldDoc q (godoc.DocText field)).
Proof.
  intros Hnodup Hkeys Hj Hin Hpath.
  induction l as [|[n f] l IH]; [inversion Hin|].
  cbn [fmap list_fmap fst] in Hkeys. apply NoDup_cons in Hkeys as [Hfresh Hkeys].
  cbn [foldr uncurry]. unfold mergeField at 1.
  apply elem_of_cons in Hin as [[= <- <-]|Hin].
  - apply setFieldDocAt_target.
    + now rewrite mergeEntries_paths.
    + apply mergeEntries_other; [exact Hj|].
      intros n' f' Hin' Heq. rewrite Hpath in Heq.
      do 2 apply append_inv_head in Heq. subst n'.
      apply Hfresh. apply list_elem_of_fmap. now exists (name, f').
    + congruence.
  - apply setFieldDocAt_other; [now apply IH|].
    cbn [Path withFieldDoc]. rewrite Hpath. intros Heq.
    do 2 apply append_inv_head in Heq. subst n.
    apply Hfresh. apply list_elem_of_fmap. now exists (name, field).
Qed.

Lemma mergeFields_other path fields properties j q :
  properties !! j = Some q ->
  (forall name, is_Some (fields !! name) -> path +:+ "." +:+ name <> Path q) ->
  mergeFields path fields properties !! j = Some q.
Proof.
  intros Hj Hne. unfold mergeFields. rewrite map_fold_foldr.
  apply mergeEntries_other; [exact Hj|].
  intros name field Hin%elem_of_map_to_list. apply Hne. eauto.
Qed.

Lemma mergeFields_target path fields properties j q name field :
  NoDup (map Path properties) ->
  properties !! j = Some q -> fields !! name = Some field ->
  Path q = path +:+ "." +:+ name ->
  mergeFields path fields properties !! j
  = Some (withFieldDoc q (godoc.DocText field)).
Proof.
  intros Hnodup Hj Hfield Hpath. unfold mergeFields.
  rewrite map_fold_foldr.
  apply (mergeEntries_target path _ properties j q name field); auto.
  - apply NoDup_fst_map_to_list.
  - now apply elem_of_map_to_list.
Qed.

(** An iteration that writes no field doc at the path of the property at
    [j] leaves the field doc and the frame of that property. *)
Lemma mergeProperty_other goDocs properties i j q :
  properties !! j = Some q ->
  (forall p, properties !! i = Some p -> ~ writesFieldDoc goDocs p (Path q)) ->
  exists q',
    mergeProperty goDocs properties i !! j = Some q' /\
    FieldDoc q' = FieldDoc q /\ frame q' = frame q.
Proof.
  intros Hj Hwrites. unfold mergeProperty.
  destruct (properties !! i) as [p|] eqn:Hp; [|eauto].
  case_decide as Hpkg; [eauto|].
  destruct (goDocs !! key p) as [goDoc|] eqn:Hdoc; [|eauto].
  assert (mergeFields (Path (withTypeDoc p (godoc.DocText goDoc)))
            (default ∅ (godoc.StructFields goDoc)) properties !! j = Some q)
    as Hmerged.
  { apply mergeFields_other; [exact Hj|]. intros name Hname Heq.
    apply (Hwrites p eq_refl). split; [exact Hpkg|].
    exists goDoc, name. auto. }
  destruct (decide (i = j)) as [->|Hne].
  - rewrite Hj in Hp. injection Hp as ->.
    rewrite list_lookup_insert_eq by (eapply lookup_lt_Some, Hmerged).
    eexists. split; [reflexivity|]. now destruct p.
  - rewrite list_lookup_insert_ne by exact Hne. eauto.
Qed.

(** The iteration of a property with an entry writes the doc of the
    entry's member at the member's path. *)
Lemma mergeProperty_target goDocs properties i j p q goDoc fields name field :
  NoDup (map Path properties) ->
  properties !! i = Some p -> properties !! j = Some q ->
  typeinfo.Package (TypeInfo p) <> "" ->
  goDocs !! key p = Some goDoc ->
  godoc.StructFields goDoc = Some fields -> fields !! name = Some field ->
  Path q = Path p +:+ "." +:+ name ->
  exists q',
    mergeProperty goDocs properties i !! j = Some q' /\
    FieldDoc q' = godoc.DocText field /\ frame q' = frame q.
Proof.
  intros Hnodup Hp Hq Hpkg Hdoc Hfields Hfield Hpath. unfold mergeProperty.
  rewrite Hp, decide_False, Hdoc, Hfields by exact Hpkg. cbn [default].
  assert (i <> j) as Hne.
  { intros ->. rewrite Hq in Hp. injection Hp as ->.
    symmetry in Hpath. now apply append_longer in Hpath. }
  rewrite list_lookup_insert_ne by exact Hne.
  erewrite mergeFields_target; eauto.
Qed.

Lemma map_frame_insert (l : list PropertyDoc) i x y :
  l !! i = Some y -> frame x = frame y ->
  map frame (<[i := x]> l) = map frame l.
Proof.
  intros Hy Hframe. change (map frame ?l) with (frame <$> l).
  rewrite list_fmap_insert. apply list_insert_id.
  rewrite list_lookup_fmap, Hy. cbn [fmap option_fmap option_map].
  now rewrite Hframe.
Qed.

Lemma frame_key p q : frame p = frame q -> key p = key q /\ Path p = Path q.
Proof.
  destruct p, q. unfold frame, key. cbn. intros [= -> -> _ _]. auto.
Qed.

Lemma writesFieldDoc_frame goDocs p q fieldPath :
  frame p = frame q ->
  writesFieldDoc goDocs p fieldPath -> writesFieldDoc goDocs q fieldPath.
Proof.
  intros Hframe (Hpkg & goDoc & name & Hdoc & Hname & ->).
  destruct (frame_key _ _ Hframe) as [Hkey Hpath].
  assert (TypeInfo p = TypeInfo q) as Hti
    by (destruct p, q; unfold frame in Hframe; cbn in *; congruence).
  split; [congruence|]. exists goDoc, name. rewrite <- Hkey, <- Hpath. auto.
Qed.

(** Iterations that write no field doc at the path of the property at [j],
    one after the other. *)
Lemma mergeDocs_other goDocs original idxs properties j q :
  map frame properties = map frame original ->
  properties !! j = Some q ->
  (forall i p, i ∈ idxs -> original !! i = Some p ->
     ~ writesFieldDoc goDocs p (Path q)) ->
  exists q',
    fold_left (mergeProperty goDocs) idxs properties !! j = Some q' /\
    FieldDoc q' = FieldDoc q /\ frame q' = frame q /\
    map frame (fold_left (mergeProperty goDocs) idxs properties)
    = map frame original.
Proof.
  revert properties q. induction idxs as [|i idxs IH];
    intros properties q Hframes Hj Hwrites; [eauto 6|].
  cbn [fold_left].
  destruct (mergeProperty_other goDocs properties i j q Hj) as (q1 & Hq1 & Hfd & Hfr).
  { intros p Hp Hw.
    assert (exists p0, original !! i = Some p0 /\ frame p = frame p0)
      as (p0 & Hp0 & Hpp0).
    { apply (f_equal (fun l => l !! i)) in Hframes.
      change (map ?f ?l) with (f <$> l) in Hframes.
      rewrite !list_lookup_fmap, Hp in Hframes.
      destruct (original !! i) as [p0|]; [|discriminate].
      cbn [fmap option_fmap option_map] in Hframes.
      exists p0. split; [reflexivity|congruence]. }
    apply (Hwrites i p0); [now left|exact Hp0|].
    eapply writesFieldDoc_frame; eauto. }
  assert (map frame (mergeProperty goDocs properties i) = map frame original)
    as Hframes1.
  { rewrite <- Hframes.
    pose proof (mergeProperty_sans goDocs properties i) as Hsans.
    apply (f_equal (map frame)) in Hsans. rewrite map_map in Hsans.
    etransitivity; [exact Hsans|].
    destruct (map sansFieldDoc properties !! i) as [x|] eqn:Hx.
    - rewrite (map_frame_insert _ _ _ x Hx) by now destruct x.
      now rewrite map_map.
    - now rewrite map_map. }
  destruct (IH _ q1 Hframes1 Hq1) as (q2 & Hq2 & Hfd2 & Hfr2 & Hframes2).
  { destruct (frame_key _ _ Hfr) as [_ ->].
    intros i' p Hin. apply Hwrites. now right. }
  exists q2. split; [exact Hq2|]. split; [congruence|]. split; [congruence|].
  exact Hframes2.
Qed.

Lemma mergeProperty_frames goDocs properties i :
  map frame (mergeProperty goDocs properties i) = map frame properties.
Proof.
  pose proof (mergeProperty_sans goDocs properties i) as Hsans.
  apply (f_equal (map frame)) in Hsans. rewrite map_map in Hsans.
  etransitivity; [exact Hsans|].
  destruct (map sansFieldDoc properties !! i) as [x|] eqn:Hx.
  - rewrite (map_frame_insert _ _ _ x Hx) by now destruct x.
    now rewrite map_map.
  - now rewrite map_map.
Qed.

Lemma frames_lookup (l1 l2 : list PropertyDoc) i p :
  map frame l1 = map frame l2 -> l1 !! i = Some p ->
  exists p', l2 !! i = Some p' /\ frame p' = frame p.
Proof.
  intros Hframes Hp. apply (f_equal (fun l => l !! i)) in Hframes.
  change (map ?f ?l) with (f <$> l) in Hframes.
  rewrite !list_lookup_fmap, Hp in Hframes.
  destruct (l2 !! i) as [p'|]; [|discriminate].
  cbn [fmap option_fmap option_map] in Hframes.
  exists p'. split; [reflexivity|congruence].
Qed.

Lemma frames_paths (l1 l2 : list PropertyDoc) :
  map frame l1 = map frame l2 -> map Path l1 = map Path l2.
Proof.
  intros H. apply (f_equal (map (fun f => f.1.1.1))) in H.
  now rewrite !map_map in H.
Qed.

Lemma setFieldDocAt_comm a x b y properties :
  a <> b ->
  setFieldDocAt a x (setFieldDocAt b y properties)
  = setFieldDocAt b y (setFieldDocAt a x properties).
Proof.
  intros Hne. induction properties as [|p rest IH]; [reflexivity|].
  cbn [setFieldDocAt].
  destruct (decide (a = Path p)) as [Ha|Ha],
           (decide (b = Path p)) as [Hb|Hb]; try congruence;
    cbn [setFieldDocAt Path withFieldDoc].
  - now rewrite decide_True, decide_False by assumption.
  - now rewrite decide_False, decide_True by assumption.
  - rewrite !decide_False by assumption. now rewrite IH.
Qed.


Lemma mergeDocs_target goDocs original i j p q goDoc fields name field :
  NoDup (map Path original) ->
  original !! i = Some p -> original !! j = Some q ->
  typeinfo.Package (TypeInfo p) <> "" ->
  goDocs !! key p = Some goDoc ->
  godoc.StructFields goDoc = Some fields -> fields !! name = Some field ->
  Path q = Path p +:+ "." +:+ name ->
  (forall i' p', i' <> i -> original !! i' = Some p' ->
     ~ writesFieldDoc goDocs p' (Path q)) ->
  exists q',
    fold_left (mergeProperty goDocs) (seq 0 (length original)) original !! j
    = Some q' /\
    FieldDoc q' = godoc.DocText field.
Proof.
  intros Hnodup Hp Hq Hpkg Hdoc Hfields Hfield Hpath Honly.
  assert (i < length original) as Hi by (eapply lookup_lt_Some, Hp).
  replace (length original) with (i + S (length original - S i)) by lia.
  rewrite seq_app, fold_left_app. cbn [seq fold_left Nat.add].
  destruct (mergeDocs_other goDocs original (seq 0 i) original j q eq_refl Hq)
    as (q1 & Hq1 & Hfd1 & Hfr1 & Hframes1).
  { intros i' p' Hin%elem_of_seq. apply Honly. lia. }
  set (l1 := fold_left (mergeProperty goDocs) (seq 0 i) original) in *.
  destruct (frames_lookup original l1 i p) as (p1 & Hp1 & Hfrp); auto.
  destruct (frame_key _ _ Hfrp) as [Hkey1 Hpath1].
  destruct (frame_key _ _ Hfr1) as [_ Hpathq].
  assert (TypeInfo p1 = TypeInfo p) as Hti
    by (destruct p, p1; unfold frame in Hfrp; cbn in *; congruence).
  destruct (mergeProperty_target goDocs l1 i j p1 q1 goDoc fields name field)
    as (q2 & Hq2 & Hfd2 & Hfr2); auto; try congruence.
  { rewrite (frames_paths _ _ Hframes1). exact Hnodup. }
  destruct (mergeDocs_other goDocs original (seq (S i) (length original - S i))
              (mergeProperty goDocs l1 i) j q2) as (q3 & Hq3 & Hfd3 & _).
  - now rewrite mergeProperty_frames.
  - exact Hq2.
  - destruct (frame_key _ _ Hfr2) as [_ ->]. rewrite Hpathq.
    intros i' p' Hin%elem_of_seq. apply Honly. lia.
  - exists q3. split; [exact Hq3|congruence].
Qed.

End Merge.

(** X4: [mergeDocs] keeps the number and order of the properties and, in
    every property, the path, the type descriptor, the deprecation note
    and the children paths; the type doc of a property becomes the doc of
    the entry found under the property's key, and stays as it was for a
    property of a built-in type (empty package) or without an entry. The
    document's name and doc are kept. *)
Theorem X4_mergeDocs_frame_and_type_docs
    (objectDoc : govydoc.ObjectDoc) (goDocs : gmap string godoc.Doc) :
  govydoc.Name (generate.mergeDocs objectDoc goDocs) = govydoc.Name objectDoc /\
  govydoc.Doc (generate.mergeDocs objectDoc goDocs) = govydoc.Doc objectDoc /\
  length (govydoc.Properties (generate.mergeDocs objectDoc goDocs))
  = length (govydoc.Properties objectDoc) /\
  forall i p,
    govydoc.Properties objectDoc !! i = Some p ->
    exists q,
      govydoc.Properties (generate.mergeDocs objectDoc goDocs) !! i = Some q /\
      generate.frame q = generate.frame p /\
      govydoc.TypeDoc q = generate.mergedTypeDoc goDocs p.
Proof.
  pose proof (mergeDocs_sans goDocs (govydoc.Properties objectDoc)) as H.
  rewrite map_map in H.
  split; [reflexivity|]. split; [reflexivity|].
  assert (length (govydoc.Properties (generate.mergeDocs objectDoc goDocs))
          = length (govydoc.Properties objectDoc)) as Hlen.
  { apply (f_equal length) in H. now rewrite !length_map in H. }
  split; [exact Hlen|].
  intros i p Hp.
  destruct (lookup_lt_is_Some_2
              (govydoc.Properties (generate.mergeDocs objectDoc goDocs)) i)
    as [q Hq].
  { rewrite Hlen. eapply lookup_lt_Some, Hp. }
  exists q. split; [exact Hq|].
  apply (f_equal (fun l => l !! i)) in H.
  change (map ?f ?l) with (f <$> l) in H.
  rewrite !list_lookup_fmap in H.
  change (fold_left _ _ _)
    with (govydoc.Properties (generate.mergeDocs objectDoc goDocs)) in H.
  rewrite Hq, Hp in H. cbn [fmap option_fmap option_map] in H.
  injection H as Hpath Hti Htd Hdep Hch.
  unfold generate.frame. rewrite Hpath, Hti, Hdep, Hch.
  split; [reflexivity|]. rewrite Htd. unfold generate.mergedTypeDoc.
  now destruct p.
Qed.



(** X6: the member docs of an entry are merged to the same result in
    whatever order the members of the map are visited: running the member
    loop of [mergeDocs] over any enumeration of [StructFields] gives what
    the enumeration of the model gives. *)
Theorem X6_member_docs_merge_in_any_order
    (path : string) (fields : gmap string godoc.Doc)
    (properties : list govydoc.PropertyDoc)
    (entries : list (string * godoc.Doc))
    (Hentries : entries ≡ₚ map_to_list fields) :
  foldr (uncurry (generate.mergeField path)) properties entries
  = generate.mergeFields path fields properties.
Proof.
  unfold generate.mergeFields. rewrite map_fold_foldr.
  symmetry in Hentries. symmetry.
  apply (foldr_permutation eq _ _ _ _ ); [|exact Hentries].
  intros j1 [n1 f1] j2 [n2 f2] b Hne H1 H2. cbn [uncurry].
  unfold generate.mergeField. apply setFieldDocAt_comm.
  intros Heq. do 2 apply append_inv_head in Heq. subst n2.
  pose proof (NoDup_fst_map_to_list fields) as Hnodup.
  apply Hne. eapply NoDup_lookup; [exact Hnodup| |].
  - rewrite list_lookup_fmap, H1. reflexivity.
  - rewrite list_lookup_fmap, H2. reflexivity.
Qed.

Lemma X6_member_docs_merge_in_any_order_witness :
  let fields : gmap string godoc.Doc :=
    {[ "a" := godoc.mkDoc "string" "" "A is first." None;
       "b" := godoc.mkDoc "string" "" "B is second." None ]} in
  let properties :=
    [sample.property "$" "" ""; sample.property "$.a" "" "";
     sample.property "$.b" "" ""] in
  rev (map_to_list fields) ≡ₚ map_to_list fields /\
  map govydoc.FieldDoc
    (foldr (uncurry (generate.mergeField "$")) properties
       (rev (map_to_list fields)))
  = [""; "A is first."; "B is second."].
Proof.
  cbn zeta.
  assert (forall l : list (string * godoc.Doc), rev l ≡ₚ l) as Hrev
    by (intros l; symmetry; apply Permutation_rev).
  split; [apply Hrev|].
  rewrite (X6_member_docs_merge_in_any_order "$" _ _ _ (Hrev _)).
  vm_compute. reflexivity.
Defined.

(** X7: [mergeDocs] leaves the field doc of a property as it was unless
    some property of the document has an entry with a member whose path,
    the property's path followed by [.] and the member's name, is the path
    of that property. *)
Theorem X7_mergeDocs_keeps_untargeted_field_docs
    (objectDoc : govydoc.ObjectDoc) (goDocs : gmap string godoc.Doc)
    (j : nat) (q : govydoc.PropertyDoc)
    (Hq : govydoc.Properties objectDoc !! j = Some q)
    (Hnone : forall i p,
       govydoc.Properties objectDoc !! i = Some p ->
       ~ generate.writesFieldDoc goDocs p (govydoc.Path q)) :
  exists q',
    govydoc.Properties (generate.mergeDocs objectDoc goDocs) !! j = Some q' /\
    govydoc.FieldDoc q' = govydoc.FieldDoc q.
Proof.
  destruct (mergeDocs_other goDocs (govydoc.Properties objectDoc)
              (seq 0 (length (govydoc.Properties objectDoc)))
              (govydoc.Properties objectDoc) j q eq_refl Hq)
    as (q' & Hq' & Hfd & _); [|eauto].
  intros i p _. apply Hnone.
Qed.

(** X8: in a document with pairwise distinct paths, when a property of a
    named type has an entry and the entry has a member [name], the
    property at the first property's path followed by [.] and [name] gets
    the member's doc as field doc, provided that no other property writes
    at that path. *)
Theorem X8_mergeDocs_sets_member_field_doc
    (objectDoc : govydoc.ObjectDoc) (goDocs : gmap string godoc.Doc)
    (i j : nat) (p q : govydoc.PropertyDoc) (goDoc : godoc.Doc)
    (fields : gmap string godoc.Doc) (name : string) (field : godoc.Doc)
    (Hnodup : NoDup (map govydoc.Path (govydoc.Properties objectDoc)))
    (Hp : govydoc.Properties objectDoc !! i = Some p)
    (Hq : govydoc.Properties objectDoc !! j = Some q)
    (Hpkg : typeinfo.Package (govydoc.TypeInfo p) <> "")
    (Hdoc : goDocs !! govydoc.key p = Some goDoc)
    (Hfields : godoc.StructFields goDoc = Some fields)
    (Hfield : fields !! name = Some field)
    (Hpath : govydoc.Path q = govydoc.Path p +:+ "." +:+ name)
    (Honly : forall i' p', i' <> i ->
       govydoc.Properties objectDoc !! i' = Some p' ->
       ~ generate.writesFieldDoc goDocs p' (govydoc.Path q)) :
  exists q',
    govydoc.Properties (generate.mergeDocs objectDoc goDocs) !! j = Some q' /\
    govydoc.FieldDoc q' = godoc.DocText field.
Proof.
  exact (mergeDocs_target goDocs (govydoc.Properties objectDoc) i j p q goDoc
           fields name field Hnodup Hp Hq Hpkg Hdoc Hfields Hfield Hpath
           Honly).
Qed.

Lemma fixture_only_account_writes i p fieldPath :
  i <> 0 -> govydoc.Properties fixture.objectDoc !! i = Some p ->
  ~ generate.writesFieldDoc fixture.goDocs p fieldPath.
Proof.
  intros Hi Hp [Hpkg _]. destruct i as [|[|i]]; [congruence| |discriminate].
  injection Hp as <-. now apply Hpkg.
Qed.

Lemma X7_mergeDocs_keeps_untargeted_field_docs_witness :
  govydoc.Properties fixture.objectDoc !! 0 = Some fixture.account /\
  (forall i p,
     govydoc.Properties fixture.objectDoc !! i = Some p ->
     ~ generate.writesFieldDoc fixture.goDocs p "$") /\
  exists q',
    govydoc.Properties (generate.mergeDocs fixture.objectDoc fixture.goDocs)
      !! 0 = Some q' /\
    govydoc.FieldDoc q' = "".
Proof.
  assert (forall i p,
            govydoc.Properties fixture.objectDoc !! i = Some p ->
            ~ generate.writesFieldDoc fixture.goDocs p "$") as Hnone.
  { intros [|i] p Hp.
    - injection Hp as <-. intros (_ & goDoc & name & _ & _ & Heq).
      change "$" with (govydoc.Path fixture.account) in Heq at 1.
      symmetry in Heq. now apply append_longer in Heq.
    - now apply (fixture_only_account_writes (S i)). }
  split; [reflexivity|]. split; [exact Hnone|].
  exact (X7_mergeDocs_keeps_untargeted_field_docs fixture.objectDoc
           fixture.goDocs 0 fixture.account eq_refl Hnone).
Defined.

Lemma X8_mergeDocs_sets_member_field_doc_witness :
  NoDup (map govydoc.Path (govydoc.Properties fixture.objectDoc)) /\
  fixture.goDocs !! govydoc.key fixture.account = Some fixture.accountDoc /\
  exists q',
    govydoc.Properties (generate.mergeDocs fixture.objectDoc fixture.goDocs)
      !! 1 = Some q' /\
    govydoc.FieldDoc q' = "Name is the name of the account.".
Proof.
  assert (NoDup (map govydoc.Path (govydoc.Properties fixture.objectDoc)))
    as Hnodup by (apply (bool_decide_unpack _); vm_compute; exact I).
  split; [exact Hnodup|]. split; [reflexivity|].
  refine (X8_mergeDocs_sets_member_field_doc fixture.objectDoc fixture.goDocs
            0 1 fixture.account fixture.accountName fixture.accountDoc
            {[ "name" := fixture.nameDoc ]} "name" fixture.nameDoc
            Hnodup eq_refl eq_refl _ eq_refl eq_refl eq_refl eq_refl _).
  - discriminate.
  - intros i' p'. apply fixture_only_account_writes.
Defined.

(* ===================================================================== *)
(** ** Properties of [extendWithValidationPlan] *)
(* ===================================================================== *)

Section Extend.
Import govydoc generate.

Lemma extendProperty_paths propPlan properties :
  map Path (extendProperty propPlan properties) = map Path properties /\
  map ChildrenPaths (extendProperty propPlan properties)
  = map ChildrenPaths properties.
Proof.
  induction properties as [|p rest [IH1 IH2]]; [split; reflexivity|].
  cbn [extendProperty]. case_decide as Hp; cbn [map].
  - now rewrite IH1, IH2.
  - cbn [Path ChildrenPaths]. now rewrite Hp.
Qed.

Lemma extendProperty_other propPlan properties i p :
  properties !! i = Some p -> PlanPath propPlan <> Path p ->
  extendProperty propPlan properties !! i = Some p.
Proof.
  revert i. induction properties as [|x rest IH]; intros i Hi Hne;
    [discriminate|].
  cbn [extendProperty]. destruct i as [|i].
  - injection Hi as ->. now rewrite decide_True.
  - case_decide; [apply IH; assumption|exact Hi].
Qed.

Lemma extendAll_paths plans properties :
  map Path (fold_left (fun ps propPlan => extendProperty propPlan ps)
              plans properties) = map Path properties /\
  map ChildrenPaths (fold_left (fun ps propPlan => extendProperty propPlan ps)
                       plans properties) = map ChildrenPaths properties.
Proof.
  revert properties. induction plans as [|plan plans IH]; intros properties;
    [split; reflexivity|].
  cbn [fold_left]. destruct (IH (extendProperty plan properties)) as [-> ->].
  apply extendProperty_paths.
Qed.

Lemma extendAll_other plans properties i p :
  properties !! i = Some p -> Path p ∉ map PlanPath plans ->
  fold_left (fun ps propPlan => extendProperty propPlan ps) plans properties
    !! i = Some p.
Proof.
  revert properties. induction plans as [|plan plans IH];
    intros properties Hi Hnotin; [exact Hi|].
  cbn [fold_left map] in *. apply IH.
  - apply extendProperty_other; [exact Hi|]. intros Heq. apply Hnotin.
    rewrite Heq. now left.
  - intros Hin. apply Hnotin. now right.
Qed.

End Extend.

(** X9: [extendWithValidationPlan] takes the document's name from the
    plan and keeps, in order, the path and the children paths of every
    property; a property whose path is the path of no entry of the plan is
    left as it is. *)
Theorem X9_extendWithValidationPlan_keeps_structure
    (o : govydoc.ObjectDoc) (plan : generate.ValidatorPlan) :
  govydoc.Name (generate.extendWithValidationPlan o plan)
  = generate.PlanName plan /\
  map govydoc.Path
    (govydoc.Properties (generate.extendWithValidationPlan o plan))
  = map govydoc.Path (govydoc.Properties o) /\
  map govydoc.ChildrenPaths
    (govydoc.Properties (generate.extendWithValidationPlan o plan))
  = map govydoc.ChildrenPaths (govydoc.Properties o) /\
  forall i p,
    govydoc.Properties o !! i = Some p ->
    govydoc.Path p ∉ map generate.PlanPath (generate.PlanProperties plan) ->
    govydoc.Properties (generate.extendWithValidationPlan o plan) !! i
    = Some p.
Proof.
  split; [reflexivity|].
  destruct (extendAll_paths (generate.PlanProperties plan)
              (govydoc.Properties o)) as [Hpaths Hchildren].
  split; [exact Hpaths|]. split; [exact Hchildren|].
  intros i p. apply extendAll_other.
Qed.

(* ===================================================================== *)
(** ** Invariants of the correlator *)
(* ===================================================================== *)

Section CorrelatorInvariants.
Import reflect.
Variable env : typeEnv.
Variable pkgs : gmap string godoc.goPackage.
Variable Markdown : godoc.goPackage -> string -> string.

Lemma memberDoc_describes pkg astFields f fieldDoc :
  godoc.Name (registry.memberDoc Markdown pkg astFields f fieldDoc)
  = godoc.Name fieldDoc /\
  godoc.Package (registry.memberDoc Markdown pkg astFields f fieldDoc)
  = godoc.Package fieldDoc /\
  godoc.StructFields (registry.memberDoc Markdown pkg astFields f fieldDoc)
  = godoc.StructFields fieldDoc.
Proof.
  unfold registry.memberDoc. now destruct (astFields !! FieldName f).
Qed.

(** What one member adds to the entry of its struct. *)
Lemma parseStructField_inv (parse : registry.run) f typeDoc pkg astFields st
    typeDoc' st' :
  godoc.parseStructField Markdown parse f typeDoc pkg astFields st
  = Some (inl typeDoc', st') ->
  exists fieldDoc,
    parse (FieldType f) st = Some (inl fieldDoc, st') /\
    godoc.Name typeDoc' = godoc.Name typeDoc /\
    godoc.Package typeDoc' = godoc.Package typeDoc /\
    godoc.DocText typeDoc' = godoc.DocText typeDoc /\
    ((godoc.getStructFieldName f = "" /\ typeDoc' = typeDoc) \/
     (godoc.getStructFieldName f <> "" /\
      godoc.StructFields typeDoc'
      = Some (<[godoc.getStructFieldName f :=
                  registry.memberDoc Markdown pkg astFields f fieldDoc]>
                (default ∅ (godoc.StructFields typeDoc))))).
Proof.
  unfold godoc.parseStructField.
  destruct (parse (FieldType f) st) as [[[fieldDoc|err] st1]|];
    [|discriminate..].
  case_decide as Hname.
  - intros [= <- <-]. exists fieldDoc. auto 10.
  - intros [= <- <-]. exists fieldDoc. cbn.
    split; [reflexivity|]. do 3 (split; [reflexivity|]). right.
    split; [exact Hname|]. reflexivity.
Qed.

Lemma parseEachField_state (I : godoc.pstate -> Prop) (parse : registry.run)
    fields :
  (forall t st r st', I st -> parse t st = Some (r, st') -> I st') ->
  forall typeDoc pkg astFields st r st',
    I st ->
    godoc.parseEachField Markdown parse fields typeDoc pkg astFields st
    = Some (r, st') ->
    I st'.
Proof.
  intros Hparse. induction fields as [|f fields IH];
    intros typeDoc pkg astFields st r st' HI; cbn [godoc.parseEachField].
  - now intros [= <- <-].
  - unfold godoc.parseStructField.
    destruct (parse (FieldType f) st) as [[[fieldDoc|err] st1]|] eqn:Hf;
      [| |discriminate].
    + pose proof (Hparse _ _ _ _ HI Hf) as HI1.
      case_decide; apply IH; exact HI1.
    + intros [= <- <-]. exact (Hparse _ _ _ _ HI Hf).
Qed.

Lemma parseEachField_entry (parse : registry.run) fields :
  forall typeDoc pkg astFields st typeDoc' st',
    godoc.parseEachField Markdown parse fields typeDoc pkg astFields st
    = Some (inl typeDoc', st') ->
    godoc.Name typeDoc' = godoc.Name typeDoc /\
    godoc.Package typeDoc' = godoc.Package typeDoc /\
    godoc.DocText typeDoc' = godoc.DocText typeDoc.
Proof.
  induction fields as [|f fields IH];
    intros typeDoc pkg astFields st typeDoc' st'; cbn [godoc.parseEachField].
  - intros [= <- <-]. auto.
  - destruct (godoc.parseStructField Markdown parse f typeDoc pkg astFields st)
      as [[[typeDoc1|err] st1]|] eqn:Hf; [|discriminate..].
    intros Hrest. apply IH in Hrest as (-> & -> & ->).
    apply parseStructField_inv in Hf as (_ & _ & ? & ? & ? & _). auto.
Qed.

(** The member docs of a struct entry: one for every output name of a
    member, each describing the member's type. *)
Lemma parseEachField_members (parse : registry.run) fields :
  (forall t st d st', parse t st = Some (inl d, st') ->
     registry.describes env t d) ->
  forall typeDoc pkg astFields st typeDoc' st',
    godoc.parseEachField Markdown parse fields typeDoc pkg astFields st
    = Some (inl typeDoc', st') ->
    is_Some (godoc.StructFields typeDoc) ->
    exists m,
      godoc.StructFields typeDoc' = Some m /\
      (forall k,
         is_Some (m !! k) <->
         is_Some (default ∅ (godoc.StructFields typeDoc) !! k) \/
         (k <> "" /\ exists f, f ∈ fields /\ godoc.getStructFieldName f = k)) /\
      (forall k fd,
         m !! k = Some fd ->
         default ∅ (godoc.StructFields typeDoc) !! k = Some fd \/
         exists f, f ∈ fields /\ godoc.getStructFieldName f = k /\
                   registry.describes env (FieldType f) fd).
Proof.
  intros Hparse. induction fields as [|f fields IH];
    intros typeDoc pkg astFields st typeDoc' st'; cbn [godoc.parseEachField].
  - intros [= <- <-] [m0 Hm0]. exists m0. rewrite Hm0. cbn [default].
    unfold id. split; [reflexivity|]. split.
    + intros k. split; [auto|]. intros [?|(_ & f & Hin & _)]; [auto|].
      inversion Hin.
    + auto.
  - destruct (godoc.parseStructField Markdown parse f typeDoc pkg astFields st)
      as [[[typeDoc1|err] st1]|] eqn:Hf; [|discriminate..].
    intros Hrest [m0 Hm0].
    apply parseStructField_inv in Hf
      as (fieldDoc & Hfield & _ & _ & _ & Hcase).
    pose proof (Hparse _ _ _ _ Hfield) as Hdesc.
    destruct Hcase as [[Hname ->]|(Hname & Hm1)].
    + destruct (IH _ _ _ _ _ _ Hrest) as (m & Hm & Hkeys & Hdocs); [eauto|].
      exists m. split; [exact Hm|]. split.
      * intros k. rewrite Hkeys. split.
        -- intros [?|(Hk & f' & Hin & Hf')]; [auto|]. right.
           split; [exact Hk|]. exists f'. rewrite elem_of_cons. auto.
        -- intros [?|(Hk & f' & Hin & Hf')]; [auto|]. right.
           split; [exact Hk|]. exists f'. split; [|exact Hf'].
           apply elem_of_cons in Hin as [->|Hin]; [congruence|exact Hin].
      * intros k fd Hk. destruct (Hdocs k fd Hk) as [?|(f' & Hin & ? & ?)];
          [auto|]. right. exists f'. rewrite elem_of_cons. auto.
    + destruct (IH _ _ _ _ _ _ Hrest) as (m & Hm & Hkeys & Hdocs); [eauto|].
      rewrite Hm1, Hm0 in Hkeys, Hdocs. cbn [default] in Hkeys, Hdocs.
      rewrite Hm0. cbn [default]. unfold id in *.
      exists m. split; [exact Hm|]. split.
      * intros k. rewrite Hkeys. rewrite lookup_insert_is_Some. split.
        -- intros [[<-|[_ ?]]|(Hk & f' & Hin & Hf')]; [|auto|].
           ++ right. split; [exact Hname|]. exists f.
              rewrite elem_of_cons. auto.
           ++ right. split; [exact Hk|]. exists f'.
              rewrite elem_of_cons. auto.
        -- intros [Hk|(Hk & f' & Hin & Hf')].
           ++ left. destruct (decide (godoc.getStructFieldName f = k));
                auto.
           ++ apply elem_of_cons in Hin as [->|Hin]; [auto|].
              right. split; [exact Hk|]. eauto.
      * intros k fd' Hk. destruct (Hdocs k fd' Hk) as [Hold|(f' & Hin & ? & ?)].
        -- apply lookup_insert_Some in Hold as [[<- <-]|[_ Hold]]; [|auto].
           right. exists f. rewrite elem_of_cons. split; [auto|].
           split; [reflexivity|]. destruct Hdesc as [Hd1 Hd2].
           destruct (memberDoc_describes pkg astFields f fieldDoc)
             as (Hn & Hp & _).
           split; congruence.
        -- right. exists f'. rewrite elem_of_cons. auto.
Qed.

(** A member doc stays as it is while the members that follow have other
    output names. *)
Lemma parseEachField_other (parse : registry.run) fields k :
  (forall f, f ∈ fields -> godoc.getStructFieldName f <> k) ->
  forall typeDoc pkg astFields st typeDoc' st',
    godoc.parseEachField Markdown parse fields typeDoc pkg astFields st
    = Some (inl typeDoc', st') ->
    is_Some (godoc.StructFields typeDoc) ->
    exists m,
      godoc.StructFields typeDoc' = Some m /\
      m !! k = default ∅ (godoc.StructFields typeDoc) !! k.
Proof.
  induction fields as [|f fields IH]; intros Hother
    typeDoc pkg astFields st typeDoc' st'; cbn [godoc.parseEachField].
  - intros [= <- <-] [m0 Hm0]. exists m0. now rewrite Hm0.
  - destruct (godoc.parseStructField Markdown parse f typeDoc pkg astFields st)
      as [[[typeDoc1|err] st1]|] eqn:Hf; [|discriminate..].
    intros Hrest Hsome.
    assert (forall f', f' ∈ fields -> godoc.getStructFieldName f' <> k)
      as Hother' by (intros f' Hin; apply Hother; now right).
    apply parseStructField_inv in Hf as (fieldDoc & _ & _ & _ & _ & Hcase).
    destruct Hcase as [[_ ->]|(_ & Hm1)].
    + now apply (IH Hother' _ _ _ _ _ _ Hrest).
    + destruct (IH Hother' _ _ _ _ _ _ Hrest) as (m & Hm & Hk); [eauto|].
      exists m. split; [exact Hm|]. rewrite Hk, Hm1. cbn [default].
      unfold id. apply lookup_insert_ne. apply Hother. now left.
Qed.

(** The member doc under an output name is made from the last member that
    has the name. *)
Lemma parseEachField_last (parse : registry.run) pre f post :
  (forall t, godoc.stateBlind (parse t)) ->
  godoc.getStructFieldName f <> "" ->
  (forall f', f' ∈ post ->
     godoc.getStructFieldName f' <> godoc.getStructFieldName f) ->
  forall typeDoc pkg astFields st typeDoc' st',
    godoc.parseEachField Markdown parse (pre ++ f :: post) typeDoc pkg
      astFields st = Some (inl typeDoc', st') ->
    is_Some (godoc.StructFields typeDoc) ->
    exists fieldDoc st0 m,
      parse (FieldType f) godoc.initial = Some (inl fieldDoc, st0) /\
      godoc.StructFields typeDoc' = Some m /\
      m !! godoc.getStructFieldName f
      = Some (registry.memberDoc Markdown pkg astFields f fieldDoc).
Proof.
  intros Hblind Hname Hlast. induction pre as [|f0 pre IH];
    intros typeDoc pkg astFields st typeDoc' st';
    cbn [app godoc.parseEachField].
  - destruct (godoc.parseStructField Markdown parse f typeDoc pkg astFields st)
      as [[[typeDoc1|err] st1]|] eqn:Hf; [|discriminate..].
    intros Hrest Hsome.
    apply parseStructField_inv in Hf
      as (fieldDoc & Hfield & _ & _ & _ & Hcase).
    destruct Hcase as [[Hempty _]|(_ & Hm1)]; [contradiction|].
    rewrite (Hblind (FieldType f) st) in Hfield.
    destruct (parse (FieldType f) godoc.initial) as [[r st0]|] eqn:Hinit;
      [|discriminate].
    injection Hfield as -> _.
    destruct (parseEachField_other parse post _ Hlast _ _ _ _ _ _ Hrest)
      as (m & Hm & Hk); [eauto|].
    exists fieldDoc, st0, m. split; [reflexivity|]. split; [exact Hm|].
    rewrite Hk, Hm1. cbn [default]. unfold id. apply lookup_insert_eq.
  - destruct (godoc.parseStructField Markdown parse f0 typeDoc pkg astFields
                st) as [[[typeDoc1|err] st1]|] eqn:Hf; [|discriminate..].
    intros Hrest Hsome. apply (IH _ _ _ _ _ _ Hrest).
    apply parseStructField_inv in Hf as (fieldDoc & _ & _ & _ & _ & Hcase).
    destruct Hcase as [[_ ->]|(_ & Hm1)]; [exact Hsome|eauto].
Qed.

Lemma Key_named d :
  godoc.Package d <> "" ->
  godoc.Key d = godoc.Package d +:+ "." +:+ godoc.Name d.
Proof. intros H. unfold godoc.Key. now rewrite decide_False. Qed.

Lemma sound_add docs d :
  registry.sound pkgs Markdown docs ->
  registry.documented pkgs Markdown d ->
  registry.sound pkgs Markdown (godoc.add docs d).
Proof.
  intros Hs Hd k d'. unfold godoc.add. rewrite lookup_insert_Some.
  intros [[<- <-]|[_ H]]; [|now apply Hs].
  split; [apply Key_named, Hd|exact Hd].
Qed.

(** [parse] keeps the result map sound. *)
Lemma parse_sound fuel :
  forall t st r st',
    registry.sound pkgs Markdown (godoc.docs st) ->
    godoc.parse env pkgs Markdown fuel t st = Some (r, st') ->
    registry.sound pkgs Markdown (godoc.docs st').
Proof.
  induction fuel as [|fuel IH]; intros t st r st' Hs; [discriminate|].
  cbn [godoc.parse].
  set (goType := godoc.descend env t).
  case_decide as Hpkg; [now intros [= <- <-]|].
  set (st1 := godoc.noteLookup _ st).
  assert (registry.sound pkgs Markdown (godoc.docs st1)) as Hs1 by exact Hs.
  destruct (godoc.getTypeDeclarationInfo pkgs _ _) as [[pkg decl]|err]
    eqn:Hdecl; [|now intros [= <- <-]].
  set (typeDoc := godoc.mkDoc _ _ _ None).
  assert (registry.documented pkgs Markdown typeDoc) as Hdoc.
  { split; [exact Hpkg|]. exists pkg, decl. split; [exact Hdecl|reflexivity]. }
  destruct (Shape (env goType)) as [k|e|e|k e|fs vs];
    try (intros [= <- <-]; now apply sound_add).
  unfold godoc.parseStructFields.
  destruct (godoc.extractStructType decl _) as [structType|err];
    [|now intros [= <- <-]].
  destruct (godoc.parseEachField _ _ _ _ _ _ _)
    as [[[typeDoc'|err] st2]|] eqn:Hfields; [| |discriminate].
  - intros [= <- <-]. cbn [godoc.register godoc.docs].
    apply sound_add.
    + eapply (parseEachField_state
                (fun st => registry.sound pkgs Markdown (godoc.docs st)));
        [|exact Hs1|exact Hfields].
      intros t' st0 r0 st0' H0 Hrun. exact (IH _ _ _ _ H0 Hrun).
    + apply parseEachField_entry in Hfields as (Hn & Hp & Hd).
      cbn in Hn, Hp, Hd. unfold registry.documented.
      rewrite Hn, Hp, Hd. exact Hdoc.
  - intros [= <- <-].
    eapply (parseEachField_state
              (fun st => registry.sound pkgs Markdown (godoc.docs st)));
      [|exact Hs1|exact Hfields].
    intros t' st0 r0 st0' H0 Hrun. exact (IH _ _ _ _ H0 Hrun).
Qed.

(** What a successful [parse] returns and enters. *)
Lemma parse_inv fuel t st d st' :
  godoc.parse env pkgs Markdown (S fuel) t st = Some (inl d, st') ->
  godoc.Name d = Name (env (godoc.descend env t)) /\
  godoc.Package d = PkgPath (env (godoc.descend env t)) /\
  (PkgPath (env (godoc.descend env t)) = "" ->
   st' = st /\ godoc.StructFields d = None) /\
  (PkgPath (env (godoc.descend env t)) <> "" ->
   godoc.docs st'
     !! (PkgPath (env (godoc.descend env t)) +:+ "." +:+
         Name (env (godoc.descend env t))) = Some d /\
   exists pkg decl,
     godoc.getTypeDeclarationInfo pkgs
       (PkgPath (env (godoc.descend env t)))
       (Name (env (godoc.descend env t))) = inl (pkg, decl) /\
     match Shape (env (godoc.descend env t)) with
     | KStruct fields _ =>
         exists structType st0 st1,
           godoc.extractStructType decl (Name (env (godoc.descend env t)))
           = inl structType /\
           godoc.parseEachField Markdown (godoc.parse env pkgs Markdown fuel)
             fields
             (godoc.mkDoc (Name (env (godoc.descend env t)))
                (PkgPath (env (godoc.descend env t)))
                (godoc.docCommentToMarkdown Markdown pkg (ast.DeclDoc decl))
                (Some ∅))
             pkg (godoc.buildASTFieldMap structType) st0
           = Some (inl d, st1)
     | _ => godoc.StructFields d = None
     end).
Proof.
  cbn [godoc.parse].
  set (goType := godoc.descend env t).
  case_decide as Hpkg.
  { intros [= <- <-]. cbn. do 2 (split; [reflexivity|]).
    split; [auto|]. intros; contradiction. }
  destruct (godoc.getTypeDeclarationInfo pkgs _ _) as [[pkg decl]|err]
    eqn:Hdecl; [|discriminate].
  assert (forall d0 st0,
            godoc.Name d0 = Name (env goType) ->
            godoc.Package d0 = PkgPath (env goType) ->
            godoc.docs (godoc.register d0 st0)
              !! (PkgPath (env goType) +:+ "." +:+ Name (env goType))
            = Some d0) as Hreg.
  { intros d0 st0 Hn Hp. cbn [godoc.register godoc.docs]. unfold godoc.add.
    rewrite Key_named by congruence. rewrite Hn, Hp.
    apply lookup_insert_eq. }
  destruct (Shape (env goType)) as [k|e|e|k e|fs vs] eqn:Hshape.
  1-4: intros [= <- <-]; cbn [godoc.Name godoc.Package godoc.StructFields];
    split; [reflexivity|]; split; [reflexivity|];
    (split; [intros; contradiction|]); intros _;
    (split; [now apply Hreg|]); exists pkg, decl; now split.
  unfold godoc.parseStructFields.
  destruct (godoc.extractStructType decl _) as [structType|err] eqn:Hstruct;
    [|discriminate].
  destruct (godoc.parseEachField _ _ _ _ _ _ _)
    as [[[typeDoc'|err] st2]|] eqn:Hfields; [|discriminate..].
  intros [= <- <-].
  destruct (parseEachField_entry _ _ _ _ _ _ _ _ Hfields) as (Hn & Hp & _).
  cbn in Hn, Hp.
  split; [exact Hn|]. split; [exact Hp|].
  split; [intros; contradiction|]. intros _.
  split; [now apply Hreg|]. exists pkg, decl. split; [reflexivity|].
  exists structType. eauto.
Qed.

Lemma parse_describes fuel t st d st' :
  godoc.parse env pkgs Markdown fuel t st = Some (inl d, st') ->
  registry.describes env t d.
Proof.
  destruct fuel as [|fuel]; [discriminate|]. intros H.
  apply parse_inv in H as (Hn & Hp & _). now split.
Qed.

(** What a successful [Parse] has run. *)
Lemma Parse_inv fuel t docs :
  godoc.Parse env pkgs Markdown fuel t = Some (Some docs, None) ->
  exists fuel' d st,
    fuel = S fuel' /\
    godoc.parse env pkgs Markdown (S fuel') t godoc.initial
    = Some (inl d, st) /\
    docs = godoc.docs st /\
    PkgPath (env (godoc.descend env t)) <> "".
Proof.
  unfold godoc.Parse.
  destruct (godoc.parse env pkgs Markdown fuel t godoc.initial)
    as [[[d|err] st]|] eqn:Hrun; [|discriminate..].
  case_decide as Hsize; [discriminate|]. intros [= <-].
  destruct fuel as [|fuel']; [discriminate|].
  exists fuel', d, st. split; [reflexivity|]. split; [exact Hrun|].
  split; [reflexivity|]. intros Hpkg.
  apply parse_inv in Hrun as (_ & _ & Hbuiltin & _).
  destruct (Hbuiltin Hpkg) as [-> _]. now apply Hsize.
Qed.

End CorrelatorInvariants.

(** X10: every entry of the map a successful [Parse] returns is stored
    under the qualified name [Package.Name] of a named type whose
    declaration the parser finds in a loaded package, and the doc text of
    the entry is the rendered doc comment of that declaration; the map is
    not empty. *)
Theorem X10_Parse_entries_are_documented_types
    (env : reflect.typeEnv) (pkgs : gmap string godoc.goPackage)
    (Markdown : godoc.goPackage -> string -> string)
    (fuel : nat) (t : reflect.tid) (docs : gmap string godoc.Doc)
    (Hparse : godoc.Parse env pkgs Markdown fuel t = Some (Some docs, None)) :
  docs <> ∅ /\ registry.sound pkgs Markdown docs.
Proof.
  apply Parse_inv in Hparse as (fuel' & d & st & -> & Hrun & -> & Hnamed).
  split.
  - apply parse_inv in Hrun as (_ & _ & _ & Hentry).
    destruct (Hentry Hnamed) as [Hd _]. intros Hempty.
    rewrite Hempty, lookup_empty in Hd. discriminate.
  - eapply parse_sound; [|exact Hrun].
    intros k d' H. cbn in H. rewrite lookup_empty in H. discriminate.
Qed.

Lemma X10_Parse_entries_are_documented_types_witness :
  godoc.Parse sample.env sample.pkgs sample.Markdown 3 sample.tPair
  = Some (Some (correlated.docs 3 sample.tPair), None) /\
  correlated.docs 3 sample.tPair <> ∅ /\
  registry.sound sample.pkgs sample.Markdown (correlated.docs 3 sample.tPair).
Proof.
  assert (godoc.Parse sample.env sample.pkgs sample.Markdown 3 sample.tPair
          = Some (Some (correlated.docs 3 sample.tPair), None)) as Hparse
    by (vm_compute; reflexivity).
  split; [exact Hparse|].
  exact (X10_Parse_entries_are_documented_types sample.env sample.pkgs
           sample.Markdown 3 sample.tPair _ Hparse).
Defined.

(** X11: when [Parse] succeeds, the root type, after one step through a
    pointer or a sequence, is a named type, and the map holds its entry
    under [PkgPath.Name], with that name and package; the entry has a
    map of member docs exactly when the type is a struct. *)
Theorem X11_Parse_enters_the_root_type
    (env : reflect.typeEnv) (pkgs : gmap string godoc.goPackage)
    (Markdown : godoc.goPackage -> string -> string)
    (fuel : nat) (t : reflect.tid) (docs : gmap string godoc.Doc)
    (Hparse : godoc.Parse env pkgs Markdown fuel t = Some (Some docs, None)) :
  reflect.PkgPath (env (godoc.descend env t)) <> "" /\
  exists d,
    docs !! (reflect.PkgPath (env (godoc.descend env t)) +:+ "." +:+
             reflect.Name (env (godoc.descend env t))) = Some d /\
    godoc.Name d = reflect.Name (env (godoc.descend env t)) /\
    godoc.Package d = reflect.PkgPath (env (godoc.descend env t)) /\
    (is_Some (godoc.StructFields d) <->
     exists fields visible,
       reflect.Shape (env (godoc.descend env t))
       = reflect.KStruct fields visible).
Proof.
  apply Parse_inv in Hparse as (fuel' & d & st & -> & Hrun & -> & Hnamed).
  split; [exact Hnamed|].
  apply parse_inv in Hrun as (Hn & Hp & _ & Hentry).
  destruct (Hentry Hnamed) as (Hd & pkg & decl & _ & Hshape).
  exists d. split; [exact Hd|]. split; [exact Hn|]. split; [exact Hp|].
  destruct (reflect.Shape (env (godoc.descend env t)))
    as [k|e|e|k e|fs vs].
  1-4: rewrite Hshape; split;
    [intros [? [=]]|intros (? & ? & [=])].
  destruct Hshape as (structType & st0 & st1 & _ & Hfields).
  split; [eauto|]. intros _.
  eapply parseEachField_members in Hfields as (m & Hm & _);
    [eauto|intros; eapply parse_describes; eassumption|cbn; eauto].
Qed.

Lemma X11_Parse_enters_the_root_type_witness :
  godoc.Parse sample.env sample.pkgs sample.Markdown 3 sample.tTs
  = Some (Some (correlated.docs 3 sample.tTs), None) /\
  exists d,
    correlated.docs 3 sample.tTs !! "example.com/m.T" = Some d /\
    godoc.Name d = "T" /\ godoc.Package d = "example.com/m".
Proof.
  assert (godoc.Parse sample.env sample.pkgs sample.Markdown 3 sample.tTs
          = Some (Some (correlated.docs 3 sample.tTs), None)) as Hparse
    by (vm_compute; reflexivity).
  split; [exact Hparse|].
  destruct (X11_Parse_enters_the_root_type sample.env sample.pkgs
              sample.Markdown 3 sample.tTs _ Hparse)
    as (_ & d & Hd & Hn & Hp & _).
  exists d. split; [exact Hd|]. split; [exact Hn|exact Hp].
Defined.

(** X12: when [Parse] succeeds on a struct type, the entry of the struct
    has a member doc under every non-empty name [getStructFieldName] gives
    a field of the struct and under no other name, and each member doc
    carries the name and the package of the type of a field with that
    name, after one step through a pointer or a sequence. *)
Theorem X12_struct_entry_has_a_member_doc_per_name
    (env : reflect.typeEnv) (pkgs : gmap string godoc.goPackage)
    (Markdown : godoc.goPackage -> string -> string)
    (fuel : nat) (t : reflect.tid) (docs : gmap string godoc.Doc)
    (fields visible : list reflect.StructField)
    (Hparse : godoc.Parse env pkgs Markdown fuel t = Some (Some docs, None))
    (Hstruct : reflect.Shape (env (godoc.descend env t))
               = reflect.KStruct fields visible) :
  exists d m,
    docs !! (reflect.PkgPath (env (godoc.descend env t)) +:+ "." +:+
             reflect.Name (env (godoc.descend env t))) = Some d /\
    godoc.StructFields d = Some m /\
    (forall k,
       is_Some (m !! k) <->
       k <> "" /\ exists f, f ∈ fields /\ godoc.getStructFieldName f = k) /\
    (forall k fd,
       m !! k = Some fd ->
       exists f,
         f ∈ fields /\ godoc.getStructFieldName f = k /\
         registry.describes env (reflect.FieldType f) fd).
Proof.
  apply Parse_inv in Hparse as (fuel' & d & st & -> & Hrun & -> & Hnamed).
  apply parse_inv in Hrun as (_ & _ & _ & Hentry).
  destruct (Hentry Hnamed) as (Hd & pkg & decl & _ & Hshape).
  rewrite Hstruct in Hshape.
  destruct Hshape as (structType & st0 & st1 & _ & Hfields).
  eapply parseEachField_members in Hfields as (m & Hm & Hkeys & Hdocs);
    [|intros; eapply parse_describes; eassumption|cbn; eauto].
  cbn [godoc.StructFields default] in Hkeys, Hdocs. unfold id in *.
  exists d, m. split; [exact Hd|]. split; [exact Hm|]. split.
  - intros k. rewrite Hkeys, lookup_empty. split.
    + intros [[? [=]]|H]. exact H.
    + auto.
  - intros k fd Hk. destruct (Hdocs k fd Hk) as [H|H]; [|exact H].
    rewrite lookup_empty in H. discriminate.
Qed.

Lemma X12_struct_entry_has_a_member_doc_per_name_witness :
  godoc.Parse sample.env sample.pkgs sample.Markdown 3 sample.tPair
  = Some (Some (correlated.docs 3 sample.tPair), None) /\
  exists d m,
    correlated.docs 3 sample.tPair !! "example.com/m.Pair" = Some d /\
    godoc.StructFields d = Some m /\
    is_Some (m !! "a") /\ m !! "A" = None.
Proof.
  assert (godoc.Parse sample.env sample.pkgs sample.Markdown 3 sample.tPair
          = Some (Some (correlated.docs 3 sample.tPair), None)) as Hparse
    by (vm_compute; reflexivity).
  split; [exact Hparse|].
  destruct (X12_struct_entry_has_a_member_doc_per_name sample.env
              sample.pkgs sample.Markdown 3 sample.tPair _
              [sample.field "A" sample.tT "a"; sample.field "B" sample.tT "b"]
              [sample.field "A" sample.tT "a"; sample.field "B" sample.tT "b"]
              Hparse eq_refl)
    as (d & m & Hd & Hm & Hkeys & _).
  exists d, m. split; [exact Hd|].
  split; [exact Hm|]. split.
  - apply Hkeys. split; [discriminate|].
    exists (sample.field "A" sample.tT "a"). split; [left|reflexivity].
  - apply eq_None_not_Some. intros H. apply Hkeys in H as (_ & f & Hin & Hf).
    apply elem_of_cons in Hin as [->|Hin]; [discriminate|].
    apply elem_of_cons in Hin as [->|Hin]; [discriminate|].
    inversion Hin.
Defined.

(** X13: when [Parse] succeeds on a struct type, the member doc under the
    name of a field is made from the last field of the struct that has the
    name: it is the entry the correlation of that field's type returns,
    with the doc text replaced by the rendered comment of the declared
    field found under the field's Go name, and with the doc text of the
    type kept when no declared field is found. *)
Theorem X13_member_doc_comes_from_the_last_field_of_its_name
    (env : reflect.typeEnv) (pkgs : gmap string godoc.goPackage)
    (Markdown : godoc.goPackage -> string -> string)
    (fuel : nat) (t : reflect.tid) (docs : gmap string godoc.Doc)
    (pre post visible : list reflect.StructField) (f : reflect.StructField)
    (Hparse : godoc.Parse env pkgs Markdown (S fuel) t
              = Some (Some docs, None))
    (Hstruct : reflect.Shape (env (godoc.descend env t))
               = reflect.KStruct (pre ++ f :: post) visible)
    (Hname : godoc.getStructFieldName f <> "")
    (Hlast : forall f', f' ∈ post ->
               godoc.getStructFieldName f' <> godoc.getStructFieldName f) :
  exists d m pkg decl structType fieldDoc st0,
    docs !! (reflect.PkgPath (env (godoc.descend env t)) +:+ "." +:+
             reflect.Name (env (godoc.descend env t))) = Some d /\
    godoc.StructFields d = Some m /\
    godoc.getTypeDeclarationInfo pkgs
      (reflect.PkgPath (env (godoc.descend env t)))
      (reflect.Name (env (godoc.descend env t))) = inl (pkg, decl) /\
    godoc.extractStructType decl (reflect.Name (env (godoc.descend env t)))
    = inl structType /\
    godoc.parse env pkgs Markdown fuel (reflect.FieldType f) godoc.initial
    = Some (inl fieldDoc, st0) /\
    m !! godoc.getStructFieldName f
    = Some (registry.memberDoc Markdown pkg
              (godoc.buildASTFieldMap structType) f fieldDoc).
Proof.
  apply Parse_inv in Hparse as (fuel' & d & st & [= <-] & Hrun & -> & Hnamed).
  apply parse_inv in Hrun as (_ & _ & _ & Hentry).
  destruct (Hentry Hnamed) as (Hd & pkg & decl & Hdecl & Hshape).
  rewrite Hstruct in Hshape.
  destruct Hshape as (structType & st1 & st2 & Hst & Hfields).
  eapply parseEachField_last in Hfields
    as (fieldDoc & st0 & m & Hfield & Hm & Hk);
    [|intros t'; apply parse_stateBlind|exact Hname|exact Hlast|cbn; eauto].
  exists d, m, pkg, decl, structType, fieldDoc, st0. auto 10.
Qed.

Lemma X13_member_doc_comes_from_the_last_field_of_its_name_witness :
  godoc.Parse sample.env sample.pkgs sample.Markdown 3 sample.tAccount
  = Some (Some (correlated.docs 3 sample.tAccount), None) /\
  exists d m,
    correlated.docs 3 sample.tAccount !! "example.com/m.Account" = Some d /\
    godoc.StructFields d = Some m /\
    is_Some (m !! "secret").
Proof.
  assert (godoc.Parse sample.env sample.pkgs sample.Markdown 3
            sample.tAccount
          = Some (Some (correlated.docs 3 sample.tAccount), None)) as Hparse
    by (vm_compute; reflexivity).
  split; [exact Hparse|].
  destruct (X13_member_doc_comes_from_the_last_field_of_its_name
              sample.env sample.pkgs sample.Markdown 2 sample.tAccount _
              [sample.field "Name" sample.tString "name"] []
              [sample.field "Name" sample.tString "name";
               sample.field "Secret" sample.tSecret "secret"]
              (sample.field "Secret" sample.tSecret "secret")
              Hparse eq_refl)
    as (d & m & pkg & decl & structType & fieldDoc & st0 & Hd & Hm & _ & _
        & _ & Hk).
  - discriminate.
  - intros f' Hin. inversion Hin.
  - exists d, m. split; [exact Hd|].
    split; [exact Hm|]. eexists. exact Hk.
Defined.

(* ===================================================================== *)
(** ** The walker and the correlator on member names and keys *)
(* ===================================================================== *)

Section MemberNames.
Import reflect.


Lemma fold_insert_names (astField : ast.Field) names
    (m : gmap string ast.Field) k :
  fold_left (fun m fieldName => <[fieldName := astField]> m) names m !! k
  = if decide (k ∈ names) then Some astField else m !! k.
Proof.
  revert m. induction names as [|n names IH]; intros m; cbn [fold_left].
  - rewrite decide_False by apply not_elem_of_nil. reflexivity.
  - rewrite IH. destruct (decide (k ∈ names)) as [Hin|Hin].
    + rewrite decide_True by now right. reflexivity.
    + destruct (decide (k = n)) as [->|Hne].
      * rewrite decide_True by now left. apply lookup_insert_eq.
      * rewrite decide_False by (rewrite elem_of_cons; tauto).
        now apply lookup_insert_ne.
Qed.

Lemma addEmbeddedFieldToMap_lookup astField (m : gmap string ast.Field) k :
  godoc.addEmbeddedFieldToMap astField m !! k
  = if decide (registry.embeddedKey astField = Some k) then Some astField
    else m !! k.
Proof.
  unfold godoc.addEmbeddedFieldToMap, registry.embeddedKey.
  destruct (ast.Typ astField) as [[name|[name| | |] sel|[name| | |]|]|];
    try (rewrite decide_False by discriminate; reflexivity);
    (destruct (decide (name = k)) as [->|Hne];
     [rewrite decide_True by reflexivity; apply lookup_insert_eq
     |rewrite decide_False by congruence; now apply lookup_insert_ne]).
Qed.

(** One declared field enters the name map under its [fieldKeys]. *)
Lemma buildASTFieldMap_step astField (m : gmap string ast.Field) k :
  (let m' := fold_left (fun m fieldName => <[fieldName := astField]> m)
               (ast.Names astField) m in
   match ast.Names astField with
   | [] => godoc.addEmbeddedFieldToMap astField m'
   | _ => m'
   end) !! k
  = if decide (k ∈ registry.fieldKeys astField) then Some astField
    else m !! k.
Proof.
  unfold registry.fieldKeys. cbn zeta.
  destruct (ast.Names astField) as [|n names] eqn:Hnames.
  - cbn [fold_left]. rewrite addEmbeddedFieldToMap_lookup.
    destruct (registry.embeddedKey astField) as [key|].
    + destruct (decide (Some key = Some k)) as [[= ->]|Hne].
      * rewrite decide_True by now left. reflexivity.
      * rewrite decide_False; [reflexivity|].
        intros ->%list_elem_of_singleton. now apply Hne.
    + rewrite decide_False by discriminate.
      rewrite decide_False by apply not_elem_of_nil. reflexivity.
  - apply fold_insert_names.
Qed.

Lemma buildASTFieldMap_fold structType (m : gmap string ast.Field) k :
  fold_left
    (fun astFieldsByName astField =>
       let m := fold_left (fun m fieldName => <[fieldName := astField]> m)
                          (ast.Names astField) astFieldsByName in
       match ast.Names astField with
       | [] => godoc.addEmbeddedFieldToMap astField m
       | _ => m
       end)
    structType m !! k
  = match last (filter (fun astField => k ∈ registry.fieldKeys astField)
                  structType) with
    | Some astField => Some astField
    | None => m !! k
    end.
Proof.
  induction structType as [|astField structType IH] using rev_ind;
    [reflexivity|].
  rewrite fold_left_app. cbn [fold_left].
  rewrite (buildASTFieldMap_step astField _ k), filter_app.
  destruct (decide (k ∈ registry.fieldKeys astField)) as [Hin|Hin].
  - rewrite filter_cons_True by exact Hin. now rewrite filter_nil, last_snoc.
  - rewrite filter_cons_False by exact Hin.
    now rewrite filter_nil, app_nil_r.
Qed.

End MemberNames.


(** X15: [buildASTFieldMap] maps a name to the last declared field that
    is entered under it: a field with names under each of its names, an
    embedded field under the identifier of its type expression ([T] for
    [T] and [*T], the qualifier [pkg] for [pkg.T]); a name no field is
    entered under is not in the map. *)
Theorem X15_buildASTFieldMap_last_declaration_wins
    (structType : list ast.Field) (name : string) :
  godoc.buildASTFieldMap structType !! name
  = last (filter (fun astField => name ∈ registry.fieldKeys astField)
            structType).
Proof.
  unfold godoc.buildASTFieldMap. rewrite buildASTFieldMap_fold.
  rewrite lookup_empty. now destruct (last _).
Qed.

Section Keys.
Import reflect.
Variable env : typeEnv.

(** The descriptor of a named type carries its name and its package. *)
Lemma Get_named fuel t ti :
  typeinfo.Get env fuel (Some t) = Some ti ->
  PkgPath (env (indirect env t)) <> "" ->
  typeinfo.Name ti = Name (env (indirect env t)) /\
  typeinfo.Package ti = PkgPath (env (indirect env t)).
Proof.
  unfold typeinfo.Get. intros H Hnamed.
  destruct (typeinfo.getKindString env fuel (indirect env t)) as [kind|];
    [|discriminate].
  destruct (Shape (env (indirect env t))) as [k|e|e|k e|fs vs];
    rewrite ?(decide_False _ _ Hnamed) in H;
    injection H as <-; split; reflexivity.
Qed.

Lemma descend_indirect t :
  (forall e, Shape (env t) <> KSlice e) ->
  godoc.descend env t = indirect env t.
Proof.
  unfold godoc.descend, indirect. intros H.
  destruct (Shape (env t)) as [k|e|e|k e|fs vs]; try reflexivity.
  now destruct (H e).
Qed.

End Keys.

(** X16: for a named type that is not a sequence (it may be behind one
    pointer), the key under which [mergeDocs] looks up a property of the
    type, made of the type descriptor [typeinfo.Get] gives, is the key
    of the entry the correlator makes for the type, and that entry is in
    the correlator's map under this key. *)
Theorem X16_property_key_is_entry_key
    (env : reflect.typeEnv) (pkgs : gmap string godoc.goPackage)
    (Markdown : godoc.goPackage -> string -> string)
    (fuelG fuelP : nat) (t : reflect.tid) (path : string)
    (ti : typeinfo.TypeInfo) (d : godoc.Doc) (st st' : godoc.pstate)
    (Hget : typeinfo.Get env fuelG (Some t) = Some ti)
    (Hrun : godoc.parse env pkgs Markdown fuelP t st = Some (inl d, st'))
    (Hnamed : reflect.PkgPath (env (reflect.indirect env t)) <> "")
    (Hplain : forall e, reflect.Shape (env t) <> reflect.KSlice e) :
  typeinfo.Package ti <> "" /\
  govydoc.key (govydoc.newProperty path ti) = godoc.Key d /\
  godoc.docs st' !! govydoc.key (govydoc.newProperty path ti) = Some d.
Proof.
  destruct (Get_named env fuelG t ti Hget Hnamed) as [Hn Hp].
  destruct fuelP as [|fuelP]; [discriminate|].
  apply parse_inv in Hrun as (Hdn & Hdp & _ & Hentry).
  rewrite (descend_indirect env t Hplain) in *.
  destruct (Hentry Hnamed) as [Hd _].
  assert (govydoc.key (govydoc.newProperty path ti)
          = reflect.PkgPath (env (reflect.indirect env t)) +:+ "." +:+
            reflect.Name (env (reflect.indirect env t))) as Hkey.
  { unfold govydoc.key. cbn [govydoc.TypeInfo govydoc.newProperty].
    rewrite decide_False by congruence. now rewrite Hn, Hp. }
  split; [congruence|]. split; [|now rewrite Hkey].
  rewrite Hkey, Key_named by congruence. now rewrite Hdn, Hdp.
Qed.

Lemma X16_property_key_is_entry_key_witness :
  exists ti d st',
    typeinfo.Get sample.env 3 (Some sample.tAccount) = Some ti /\
    godoc.parse sample.env sample.pkgs sample.Markdown 3 sample.tAccount
      godoc.initial = Some (inl d, st') /\
    govydoc.key (govydoc.newProperty "$" ti) = godoc.Key d /\
    godoc.docs st' !! govydoc.key (govydoc.newProperty "$" ti) = Some d.
Proof.
  eexists _, _, _.
  assert (typeinfo.Get sample.env 3 (Some sample.tAccount) = Some _)
    as Hget by (vm_compute; reflexivity).
  assert (godoc.parse sample.env sample.pkgs sample.Markdown 3
            sample.tAccount godoc.initial = Some (inl _, _))
    as Hrun by (vm_compute; reflexivity).
  split; [exact Hget|]. split; [exact Hrun|].
  refine (proj2 (X16_property_key_is_entry_key sample.env sample.pkgs
                   sample.Markdown 3 3 sample.tAccount "$" _ _ godoc.initial
                   _ Hget Hrun _ _)).
  - discriminate.
  - intros e. discriminate.
Defined.

(* ===================================================================== *)
(** ** The walk of a type does not depend on where the type is met *)
(* ===================================================================== *)

Section Mounting.
Import reflect govydoc.
Variable env : typeEnv.

Lemma mount_mount a b p :
  walk.mount a (walk.mount b p) = walk.mount (a +:+ b) p.
Proof. unfold walk.mount. cbn. now rewrite append_assoc. Qed.

Lemma mount_empty p : walk.mount "" p = p.
Proof. now destruct p. Qed.

Lemma map_mount_mount a b l :
  map (walk.mount a) (map (walk.mount b) l) = map (walk.mount (a +:+ b)) l.
Proof.
  rewrite map_map. apply map_ext. intros p. apply mount_mount.
Qed.

Lemma map_mount_empty l : map (walk.mount "") l = l.
Proof.
  rewrite <- (map_id l) at 2. apply map_ext. intros p. apply mount_empty.
Qed.

Lemma mount_newProperty path ti :
  walk.mount path (newProperty "" ti) = newProperty path ti.
Proof.
  unfold walk.mount, newProperty. cbn. now rewrite append_nil_r.
Qed.

Lemma MapVisibleFields_mounts Map fields :
  walk.mounts Map ->
  forall path properties,
    MapVisibleFields Map fields path properties
    = match MapVisibleFields Map fields "" [] with
      | None => None
      | Some new => Some (properties ++ map (walk.mount path) new)
      end.
Proof.
  intros HMap. induction fields as [|f fields IH]; intros path properties;
    cbn [MapVisibleFields].
  - cbn. now rewrite app_nil_r.
  - destruct (gostrings.Split (TagJson f) ",") as [|name pieces];
      [apply IH|].
    case_decide; [apply IH|].
    rewrite (HMap (FieldType f) (path +:+ "." +:+ name) properties).
    rewrite (HMap (FieldType f) ("" +:+ "." +:+ name) []).
    destruct (Map (FieldType f) "" []) as [new1|]; [|reflexivity].
    rewrite (IH path (properties ++ _)).
    rewrite (IH "" ([] ++ _)).
    destruct (MapVisibleFields Map fields "" []) as [new2|]; [|reflexivity].
    cbn [app]. rewrite map_app, map_mount_mount, map_mount_empty.
    now rewrite <- app_assoc.
Qed.

Lemma Map_mounts fuel : walk.mounts (Map env fuel).
Proof.
  induction fuel as [|fuel IH]; intros typ path properties; [reflexivity|].
  cbn [Map].
  destruct (typeinfo.Get env fuel (Some (indirect env typ))) as [ti|];
    [|reflexivity].
  destruct (Shape (env (indirect env typ))) as [k|e|e|k e|fs vs].
  - cbn. now rewrite mount_newProperty.
  - cbn. now rewrite mount_newProperty.
  - rewrite (IH e (path +:+ "[*]") (properties ++ _)).
    rewrite (IH e ("" +:+ "[*]") ([] ++ _)).
    destruct (Map env fuel e "" []) as [new|]; [|reflexivity].
    cbn [app map]. rewrite map_mount_mount, mount_newProperty.
    now rewrite <- app_assoc.
  - rewrite (IH k (path +:+ ".~") (properties ++ _)).
    rewrite (IH k ("" +:+ ".~") ([] ++ _)).
    destruct (Map env fuel k "" []) as [new1|]; [|reflexivity].
    rewrite (IH e (path +:+ ".*") ((properties ++ _) ++ _)).
    rewrite (IH e ("" +:+ ".*") (([] ++ _) ++ _)).
    destruct (Map env fuel e "" []) as [new2|]; [|reflexivity].
    cbn [app map]. rewrite map_app, !map_mount_mount, mount_newProperty.
    now rewrite <- !app_assoc.
  - rewrite (MapVisibleFields_mounts _ vs IH path (properties ++ _)).
    rewrite (MapVisibleFields_mounts _ vs IH "" ([] ++ _)).
    destruct (MapVisibleFields (Map env fuel) vs "" []) as [new|];
      [|reflexivity].
    cbn [app map]. rewrite map_mount_empty, mount_newProperty.
    now rewrite <- app_assoc.
Qed.

(** The first property a walk appends is the node of the type at the
    path of the walk. *)
Lemma Map_first fuel typ path properties properties' :
  Map env (S fuel) typ path properties = Some properties' ->
  exists ti new,
    typeinfo.Get env fuel (Some (indirect env typ)) = Some ti /\
    properties' = properties ++ newProperty path ti :: new.
Proof.
  cbn [Map].
  destruct (typeinfo.Get env fuel (Some (indirect env typ))) as [ti|];
    [|discriminate].
  intros H. exists ti.
  destruct (Shape (env (indirect env typ))) as [k|e|e|k e|fs vs].
  - injection H as <-. now exists [].
  - injection H as <-. now exists [].
  - rewrite Map_mounts in H.
    destruct (Map env fuel e "" []) as [new|]; [|discriminate].
    injection H as <-. eexists. split; [reflexivity|].
    now rewrite <- app_assoc.
  - rewrite Map_mounts in H.
    destruct (Map env fuel k "" []) as [new1|]; [|discriminate].
    rewrite Map_mounts in H.
    destruct (Map env fuel e "" []) as [new2|]; [|discriminate].
    injection H as <-. eexists. split; [reflexivity|].
    now rewrite <- !app_assoc.
  - rewrite (MapVisibleFields_mounts _ vs (Map_mounts fuel)) in H.
    destruct (MapVisibleFields (Map env fuel) vs "" []) as [new|];
      [|discriminate].
    injection H as <-. eexists. split; [reflexivity|].
    now rewrite <- app_assoc.
Qed.

End Mounting.

(** X17: the walk of a type does not depend on where the type is met:
    at any path and on any list of properties, [Map] leaves the properties
    it is given as they are and appends what the walk of the type from the
    empty path on the empty list gives, with the path put before every
    path; it returns when that walk returns. *)
Theorem X17_Map_appends_the_walk_of_the_type
    (env : reflect.typeEnv) (fuel : nat) (typ : reflect.tid)
    (path : string) (properties : list govydoc.PropertyDoc) :
  govydoc.Map env fuel typ path properties
  = match govydoc.Map env fuel typ "" [] with
    | None => None
    | Some new => Some (properties ++ map (walk.mount path) new)
    end.
Proof. apply Map_mounts. Qed.

(* ===================================================================== *)
(** ** The walk, the correlation and the merge, one after the other *)
(* ===================================================================== *)

Section Pipeline.
Import reflect.

Lemma mergeDocs_typeDoc objectDoc goDocs i p :
  govydoc.Properties objectDoc !! i = Some p ->
  exists q,
    govydoc.Properties (generate.mergeDocs objectDoc goDocs) !! i = Some q /\
    generate.frame q = generate.frame p /\
    govydoc.TypeDoc q = generate.mergedTypeDoc goDocs p.
Proof.
  intros Hp.
  pose proof (mergeDocs_sans goDocs (govydoc.Properties objectDoc)) as H.
  rewrite map_map in H.
  assert (length (govydoc.Properties (generate.mergeDocs objectDoc goDocs))
          = length (govydoc.Properties objectDoc)) as Hlen.
  { apply (f_equal length) in H. now rewrite !length_map in H. }
  destruct (lookup_lt_is_Some_2
              (govydoc.Properties (generate.mergeDocs objectDoc goDocs)) i)
    as [q Hq].
  { rewrite Hlen. eapply lookup_lt_Some, Hp. }
  exists q. split; [exact Hq|].
  apply (f_equal (fun l => l !! i)) in H.
  change (map ?f ?l) with (f <$> l) in H.
  rewrite !list_lookup_fmap in H.
  change (fold_left _ _ _)
    with (govydoc.Properties (generate.mergeDocs objectDoc goDocs)) in H.
  rewrite Hq, Hp in H. cbn [fmap option_fmap option_map] in H.
  injection H as Hpath Hti Htd Hdep Hch.
  unfold generate.frame. rewrite Hpath, Hti, Hdep, Hch.
  split; [reflexivity|]. rewrite Htd. unfold generate.mergedTypeDoc.
  now destruct p.
Qed.

(** The first property of a generated document is the node of the root
    type at [$]. *)
Lemma generateObjectDoc_root env fuel t o :
  govydoc.generateObjectDoc env fuel t = Some o ->
  exists fuel' ti children,
    fuel = S fuel' /\
    typeinfo.Get env fuel' (Some (indirect env (indirect env t))) = Some ti /\
    govydoc.Properties o !! 0
    = Some (govydoc.setChildrenPaths (govydoc.newProperty "$" ti) children).
Proof.
  intros Hdoc.
  apply generateObjectDoc_properties in Hdoc as (ps & HMap & Hps).
  destruct fuel as [|fuel']; [discriminate|].
  apply Map_first in HMap as (ti & new & Hget & ->).
  exists fuel', ti. eexists. split; [reflexivity|]. split; [exact Hget|].
  rewrite Hps. reflexivity.
Qed.

End Pipeline.

(** X18: for a struct root type, maybe behind a pointer, the walk, the
    correlation and the merge fit together as [Generate] runs them: when
    the walk and [Parse] succeed and the plan has no entry at [$], the
    first property of the merged document is the node at [$] and its type
    doc is the rendered doc comment of the declaration of the root
    type. *)
Theorem X18_root_property_gets_the_declaration_comment
    (env : reflect.typeEnv) (pkgs : gmap string godoc.goPackage)
    (Markdown : godoc.goPackage -> string -> string)
    (fuelW fuelP : nat) (t : reflect.tid)
    (o : govydoc.ObjectDoc) (docs : gmap string godoc.Doc)
    (plan : generate.ValidatorPlan)
    (fields visible : list reflect.StructField)
    (Hdoc : govydoc.generateObjectDoc env fuelW t = Some o)
    (Hparse : godoc.Parse env pkgs Markdown fuelP t = Some (Some docs, None))
    (Hstruct : reflect.Shape (env (reflect.indirect env t))
               = reflect.KStruct fields visible)
    (Hplan : "$" ∉ map generate.PlanPath (generate.PlanProperties plan)) :
  exists p pkg decl,
    govydoc.Properties
      (generate.mergeDocs (generate.extendWithValidationPlan o plan) docs)
      !! 0 = Some p /\
    govydoc.Path p = "$" /\
    godoc.getTypeDeclarationInfo pkgs
      (reflect.PkgPath (env (reflect.indirect env t)))
      (reflect.Name (env (reflect.indirect env t))) = inl (pkg, decl) /\
    govydoc.TypeDoc p
    = godoc.docCommentToMarkdown Markdown pkg (ast.DeclDoc decl).
Proof.
  set (u := reflect.indirect env t) in *.
  assert (reflect.indirect env u = u) as Hu
    by (unfold reflect.indirect at 1; now rewrite Hstruct).
  assert (godoc.descend env t = u) as Hdescend.
  { apply descend_indirect. intros e He. subst u.
    unfold reflect.indirect in Hstruct. rewrite He in Hstruct.
    congruence. }
  apply generateObjectDoc_root in Hdoc
    as (fuel' & ti & children & _ & Hget & Hroot).
  fold u in Hget. rewrite Hu in Hget.
  pose proof Hparse as Hsound.
  apply Parse_inv in Hparse as (fuel1 & d & st & -> & Hrun & -> & Hnamed).
  apply parse_inv in Hrun as Hinv. destruct Hinv as (Hn & Hp & _ & Hentry).
  rewrite Hdescend in *. destruct (Hentry Hnamed) as [Hd _].
  apply parse_sound in Hrun.
  2:{ intros k d' H. cbn in H. rewrite lookup_empty in H. discriminate. }
  destruct (Hrun _ _ Hd) as (_ & _ & pkg & decl & Hdecl & Htext).
  rewrite Hn, Hp in Hdecl.
  destruct (Get_named env fuel' u ti Hget) as [Hname Hpkg];
    [now rewrite Hu|]. rewrite Hu in Hname, Hpkg.
  set (p0 := govydoc.setChildrenPaths (govydoc.newProperty "$" ti) children)
    in *.
  assert (govydoc.Properties (generate.extendWithValidationPlan o plan) !! 0
          = Some p0) as Hext by (apply extendAll_other; assumption).
  destruct (mergeDocs_typeDoc _ (godoc.docs st) 0 p0 Hext)
    as (q & Hq & Hframe & Htd).
  exists q, pkg, decl. split; [exact Hq|].
  split; [now injection Hframe|]. split; [exact Hdecl|].
  rewrite Htd, <- Htext. unfold generate.mergedTypeDoc.
  cbn [govydoc.TypeInfo p0 govydoc.setChildrenPaths govydoc.newProperty].
  rewrite decide_False by congruence.
  unfold govydoc.key.
  cbn [govydoc.TypeInfo p0 govydoc.setChildrenPaths govydoc.newProperty].
  rewrite decide_False by congruence. rewrite Hname, Hpkg, Hd. reflexivity.
Qed.

Lemma X18_root_property_gets_the_declaration_comment_witness :
  govydoc.generateObjectDoc sample.env 3 sample.tPair
  = Some (correlated.walked 3 sample.tPair) /\
  godoc.Parse sample.env sample.pkgs sample.Markdown 3 sample.tPair
  = Some (Some (correlated.docs 3 sample.tPair), None) /\
  exists p,
    govydoc.Properties
      (generate.mergeDocs
         (generate.extendWithValidationPlan (correlated.walked 3 sample.tPair)
            {| generate.PlanName := "Pair"; generate.PlanProperties := [] |})
         (correlated.docs 3 sample.tPair))
      !! 0 = Some p /\
    govydoc.Path p = "$" /\
    govydoc.TypeDoc p = "Pair is two texts.".
Proof.
  assert (govydoc.generateObjectDoc sample.env 3 sample.tPair
          = Some (correlated.walked 3 sample.tPair)) as Hdoc
    by (vm_compute; reflexivity).
  assert (godoc.Parse sample.env sample.pkgs sample.Markdown 3 sample.tPair
          = Some (Some (correlated.docs 3 sample.tPair), None)) as Hparse
    by (vm_compute; reflexivity).
  split; [exact Hdoc|]. split; [exact Hparse|].
  destruct (X18_root_property_gets_the_declaration_comment sample.env
              sample.pkgs sample.Markdown 3 3 sample.tPair _ _
              {| generate.PlanName := "Pair"; generate.PlanProperties := [] |}
              [sample.field "A" sample.tT "a"; sample.field "B" sample.tT "b"]
              [sample.field "A" sample.tT "a"; sample.field "B" sample.tT "b"]
              Hdoc Hparse eq_refl)
    as (p & pkg & decl & Hp & Hpath & Hdecl & Htd).
  - apply not_elem_of_nil.
  - exists p. split; [exact Hp|]. split; [exact Hpath|].
    rewrite Htd. vm_compute in Hdecl. injection Hdecl as <- <-.
    reflexivity.
Defined.

(** X19: a pointer to a type that is not itself a pointer is read as
    that type: [typeinfo.Get], the walk [Map] and [generateObjectDoc]
    give for the pointer what they give for the type, and so does the
    correlation when the type is not a sequence. *)
Theorem X19_pointer_is_read_as_its_element
    (env : reflect.typeEnv) (pkgs : gmap string godoc.goPackage)
    (Markdown : godoc.goPackage -> string -> string)
    (fuel : nat) (t e : reflect.tid)
    (Hpointer : reflect.Shape (env t) = reflect.KPointer e)
    (Honce : forall e', reflect.Shape (env e) <> reflect.KPointer e') :
  typeinfo.Get env fuel (Some t) = typeinfo.Get env fuel (Some e) /\
  (forall path properties,
     govydoc.Map env fuel t path properties
     = govydoc.Map env fuel e path properties) /\
  govydoc.generateObjectDoc env fuel t = govydoc.generateObjectDoc env fuel e /\
  ((forall e', reflect.Shape (env e) <> reflect.KSlice e') ->
   forall st,
     godoc.parse env pkgs Markdown fuel t st
     = godoc.parse env pkgs Markdown fuel e st).
Proof.
  assert (reflect.indirect env t = e) as Ht
    by (unfold reflect.indirect; now rewrite Hpointer).
  assert (reflect.indirect env e = e) as He.
  { unfold reflect.indirect.
    destruct (reflect.Shape (env e)) eqn:Hshape; try reflexivity.
    now destruct (Honce elem). }
  split; [|split; [|split]].
  - unfold typeinfo.Get. now rewrite Ht, He.
  - intros path properties. destruct fuel as [|fuel]; [reflexivity|].
    cbn [govydoc.Map]. now rewrite Ht, He.
  - unfold govydoc.generateObjectDoc. now rewrite Ht, He.
  - intros Hplain st. destruct fuel as [|fuel]; [reflexivity|].
    cbn [godoc.parse].
    assert (godoc.descend env t = e) as ->
      by (unfold godoc.descend; now rewrite Hpointer).
    assert (godoc.descend env e = e) as ->; [|reflexivity].
    unfold godoc.descend.
    destruct (reflect.Shape (env e)) eqn:Hshape; try reflexivity.
    + now destruct (Honce elem).
    + now destruct (Hplain elem).
Qed.

Lemma X19_pointer_is_read_as_its_element_witness :
  reflect.Shape (sample.recursive sample.tNodePtr)
  = reflect.KPointer sample.tNode /\
  typeinfo.Get sample.recursive 2 (Some sample.tNodePtr)
  = typeinfo.Get sample.recursive 2 (Some sample.tNode).
Proof.
  split; [reflexivity|].
  refine (proj1 (X19_pointer_is_read_as_its_element sample.recursive
                   sample.pkgs sample.Markdown 2 sample.tNodePtr sample.tNode
                   eq_refl _)).
  intros e'. discriminate.
Defined.

(* ===================================================================== *)
(** ** Properties of the text transforms *)
(* ===================================================================== *)

Section Transforms.
Import gostrings govydoc.

Lemma enumReplaceAll_cut s :
  exists cut,
    s = enumReplaceAll s +:+ cut /\
    (cut = "" \/ HasPrefix cut "ENUM" = true).
Proof.
  induction s as [|c s (cut & IH & Hcut)]; [exists ""; auto|].
  cbn [enumReplaceAll].
  destruct (HasPrefix (String c s) "ENUM") eqn:Hp.
  - exists (String c s). auto.
  - exists cut. rewrite append_cons. split; [now f_equal|exact Hcut].
Qed.





Lemma restOfLine_oneLine s : oneLine (restOfLine s).
Proof.
  unfold oneLine. induction s as [|c s IH]; [reflexivity|].
  cbn [restOfLine]. destruct (isNewline c) eqn:Hc; [reflexivity|].
  rewrite Contains_char_cons. unfold isNewline in Hc. now rewrite Hc.
Qed.

Lemma deprecatedFind_oneLine bol s note :
  deprecatedFind bol s = Some note -> oneLine note.
Proof.
  revert bol. induction s as [|c s IH]; intros bol; cbn [deprecatedFind].
  - destruct bol; cbn; discriminate.
  - destruct (if bol then CutPrefix (String c s) "Deprecated:" else None)
      as [after|].
    + intros [= <-]. apply restOfLine_oneLine.
    + apply IH.
Qed.




End Transforms.

(** X20: [removeEnumDeclaration] cuts the type doc at an occurrence of
    [ENUM]: the type doc is the new type doc followed by nothing or by
    text that starts with [ENUM], and the new type doc has no [ENUM]; a
    type doc without [ENUM] is left as it is, and so is everything else in
    the property. *)
Theorem X20_removeEnumDeclaration_cuts_at_ENUM (doc : govydoc.PropertyDoc) :
  (exists cut,
     govydoc.TypeDoc doc
     = govydoc.TypeDoc (govydoc.removeEnumDeclaration doc) +:+ cut /\
     (cut = "" \/ gostrings.HasPrefix cut "ENUM" = true)) /\
  gostrings.Contains (govydoc.TypeDoc (govydoc.removeEnumDeclaration doc))
    "ENUM" = false /\
  (gostrings.Contains (govydoc.TypeDoc doc) "ENUM" = false ->
   govydoc.removeEnumDeclaration doc = doc) /\
  generate.withTypeDoc (govydoc.removeEnumDeclaration doc)
    (govydoc.TypeDoc doc) = doc.
Proof.
  split; [apply enumReplaceAll_cut|].
  split; [apply enumReplaceAll_clean|].
  split; [|now destruct doc].
  intros Hclean. unfold govydoc.removeEnumDeclaration.
  rewrite (enumReplaceAll_fixed _ Hclean). now destruct doc.
Qed.



(* ===================================================================== *)
(** ** Failures of the correlation, and the options of an annotation *)
(* ===================================================================== *)

Section MemberFailure.
Import reflect.
Variable Markdown : godoc.goPackage -> string -> string.

(** The first member whose type fails to correlate fails the struct. *)
Lemma parseEachField_fails (parse : registry.run) pre f post err st0 :
  (forall t, godoc.stateBlind (parse t)) ->
  (forall f', f' ∈ pre ->
     exists d st1, parse (FieldType f') godoc.initial = Some (inl d, st1)) ->
  parse (FieldType f) godoc.initial = Some (inr err, st0) ->
  forall typeDoc pkg astFields st,
    exists st',
      godoc.parseEachField Markdown parse (pre ++ f :: post) typeDoc pkg
        astFields st
      = Some (inr (godoc.FailedToParseField err (godoc.Name typeDoc)
                     (FieldName f)), st').
Proof.
  intros Hblind Hpre Hfail. induction pre as [|f0 pre IH];
    intros typeDoc pkg astFields st; cbn [app godoc.parseEachField].
  - unfold godoc.parseStructField.
    rewrite (Hblind (FieldType f) st), Hfail. eauto.
  - destruct (Hpre f0) as (d & st1 & Hf0); [now left|].
    unfold godoc.parseStructField at 1.
    rewrite (Hblind (FieldType f0) st), Hf0.
    assert (forall f', f' ∈ pre ->
              exists d st1,
                parse (FieldType f') godoc.initial = Some (inl d, st1))
      as Hpre' by (intros f' Hin; apply Hpre; now right).
    case_decide.
    + apply (IH Hpre').
    + destruct (IH Hpre' (godoc.mkDoc (godoc.Name typeDoc)
                            (godoc.Package typeDoc) (godoc.DocText typeDoc)
                            (Some (<[godoc.getStructFieldName f0 :=
                                       match astFields !! FieldName f0 with
                                       | Some astField =>
                                           godoc.mkDoc (godoc.Name d)
                                             (godoc.Package d)
                                             (godoc.docCommentToMarkdown
                                                Markdown pkg
                                                (ast.Doc astField))
                                             (godoc.StructFields d)
                                       | None => d
                                       end]>
                                     (default ∅ (godoc.StructFields typeDoc)))))
                  pkg astFields (godoc.after st st1)) as [st' Hst'].
      exists st'. exact Hst'.
Qed.

Lemma splitPieces_head sep name rest :
  gostrings.Contains name (String sep "") = false ->
  fst (gostrings.splitPieces sep name) = name /\
  fst (gostrings.splitPieces sep (name +:+ String sep rest)) = name.
Proof.
  induction name as [|c name IH]; intros Hname.
  - change ("" +:+ String sep rest) with (String sep rest).
    cbn [gostrings.splitPieces].
    destruct (gostrings.splitPieces sep rest).
    rewrite Ascii.eqb_refl. auto.
  - rewrite Contains_char_cons in Hname.
    apply orb_false_iff in Hname as [Hc Hname].
    destruct (IH Hname) as [IH1 IH2].
    rewrite append_cons. cbn [gostrings.splitPieces].
    destruct (gostrings.splitPieces sep name) as [w ws].
    destruct (gostrings.splitPieces sep (name +:+ String sep rest))
      as [w' ws'].
    rewrite Hc. cbn [fst] in *. now subst.
Qed.

Lemma Split_head sep name rest :
  gostrings.Contains name (String sep "") = false ->
  exists pieces pieces',
    gostrings.Split name sep = name :: pieces /\
    gostrings.Split (name +:+ String sep rest) sep = name :: pieces'.
Proof.
  intros Hname. destruct (splitPieces_head sep name rest Hname) as [H1 H2].
  unfold gostrings.Split.
  destruct (gostrings.splitPieces sep name) as [w ws].
  destruct (gostrings.splitPieces sep (name +:+ String sep rest))
    as [w' ws'].
  cbn [fst] in *. subst. eauto.
Qed.

End MemberFailure.

(** X23: when the correlation of the type of a member of a struct fails
    and that of the members before it succeeds, [Parse] of the struct
    fails: it returns no map, and the error is the member's error wrapped
    with the name of the struct and the Go name of the field. *)
Theorem X23_member_failure_fails_the_struct
    (env : reflect.typeEnv) (pkgs : gmap string godoc.goPackage)
    (Markdown : godoc.goPackage -> string -> string)
    (fuel : nat) (t : reflect.tid)
    (pre post visible : list reflect.StructField) (f : reflect.StructField)
    (pkg : godoc.goPackage) (decl : ast.GenDecl)
    (structType : list ast.Field) (err : godoc.error) (st0 : godoc.pstate)
    (Hnamed : reflect.PkgPath (env (godoc.descend env t)) <> "")
    (Hstruct : reflect.Shape (env (godoc.descend env t))
               = reflect.KStruct (pre ++ f :: post) visible)
    (Hdecl : godoc.getTypeDeclarationInfo pkgs
               (reflect.PkgPath (env (godoc.descend env t)))
               (reflect.Name (env (godoc.descend env t))) = inl (pkg, decl))
    (Hast : godoc.extractStructType decl
              (reflect.Name (env (godoc.descend env t))) = inl structType)
    (Hpre : forall f', f' ∈ pre ->
              exists d st1,
                godoc.parse env pkgs Markdown fuel (reflect.FieldType f')
                  godoc.initial = Some (inl d, st1))
    (Hfail : godoc.parse env pkgs Markdown fuel (reflect.FieldType f)
               godoc.initial = Some (inr err, st0)) :
  godoc.Parse env pkgs Markdown (S fuel) t
  = Some (None,
          Some (godoc.FailedToParseField err
                  (reflect.Name (env (godoc.descend env t)))
                  (reflect.FieldName f))).
Proof.
  unfold godoc.Parse. cbn [godoc.parse].
  rewrite decide_False by exact Hnamed. rewrite Hdecl, Hstruct.
  unfold godoc.parseStructFields. cbn [godoc.Name]. rewrite Hast.
  edestruct (parseEachField_fails Markdown
               (godoc.parse env pkgs Markdown fuel) pre f post err st0)
    as [st' ->]; [|exact Hpre|exact Hfail|reflexivity].
  intros t'. apply parse_stateBlind.
Qed.

Lemma X23_member_failure_fails_the_struct_witness :
  godoc.Parse correlated.withMissing sample.pkgs sample.Markdown 2
    sample.tHolder
  = Some (None,
          Some (godoc.FailedToParseField
                  (godoc.FailedToFindDeclaration
                     (godoc.NotInScope "example.com/m" "Missing")
                     "Missing" "example.com/m")
                  "Holder" "Hidden")).
Proof.
  refine (X23_member_failure_fails_the_struct correlated.withMissing
            sample.pkgs sample.Markdown 1 sample.tHolder [] []
            [sample.field "Hidden" 20 "hidden"]
            (sample.field "Hidden" 20 "hidden") _ _ _ _ _ _ eq_refl _ _ _ _).
  - discriminate.
  - vm_compute. reflexivity.
  - vm_compute. reflexivity.
  - intros f' Hin. inversion Hin.
  - vm_compute. reflexivity.
Defined.

(** X24: what follows the first comma of a json annotation does not
    count: the walker and the correlator name a member whose annotation
    is a name without comma followed by a comma and options as they name
    the member with the name alone as annotation. *)
Theorem X24_annotation_options_are_ignored
    (field : reflect.StructField) (name options : string)
    (Htag : reflect.TagJson field = name +:+ "," +:+ options)
    (Hname : gostrings.Contains name "," = false) :
  govydoc.outputName field
  = govydoc.outputName
      {| reflect.FieldName := reflect.FieldName field;
         reflect.FieldPkgPath := reflect.FieldPkgPath field;
         reflect.FieldType := reflect.FieldType field;
         reflect.TagJson := name |} /\
  godoc.getStructFieldName field
  = godoc.getStructFieldName
      {| reflect.FieldName := reflect.FieldName field;
         reflect.FieldPkgPath := reflect.FieldPkgPath field;
         reflect.FieldType := reflect.FieldType field;
         reflect.TagJson := name |}.
Proof.
  destruct (Split_head ","%char name options Hname)
    as (pieces & pieces' & H1 & H2).
  unfold govydoc.outputName, godoc.getStructFieldName, reflect.IsExported.
  cbn [reflect.TagJson reflect.FieldPkgPath reflect.FieldName].
  rewrite Htag. change ("," +:+ options) with (String "," options).
  now rewrite H1, H2.
Qed.

Lemma X24_annotation_options_are_ignored_witness :
  godoc.getStructFieldName (sample.field "Name" sample.tString "name,omitempty")
  = "name" /\
  govydoc.outputName (sample.field "Name" sample.tString "name,omitempty")
  = Some "name".
Proof.
  destruct (X24_annotation_options_are_ignored
              (sample.field "Name" sample.tString "name,omitempty")
              "name" "omitempty" eq_refl eq_refl) as [Hwalk Hcorr].
  split; [rewrite Hcorr|rewrite Hwalk]; reflexivity.
Defined.
